(** * diagnostics/stratonovich_diagonal.py: the diagnostic script, embedded

    The script drives torch, torchsde, numpy, scipy and matplotlib.  Its two
    procedures are embedded as programs of a state-and-exception monad over
    a [World] that holds what the script can observe or change: the module
    global [device], torch's process-wide settings, the random sources, the
    heap of Python objects the script shares by reference (the Ex2 models,
    their Parameter, the Brownian path object), pyplot's figures, the file
    system, and the chronological trace of the library calls made.

    What the libraries compute numerically is not in the script: those
    functions are the fields of a [Lib] record, a parameter of everything
    below.  Floats are binary64 ([PrimFloat.float]). *)

From Stdlib Require Import Floats ZArith Ascii String.
From stdpp Require Import gmap strings list pretty.

Open Scope string_scope.

(** ** Data *)

Inductive device := cpu | cuda.
Inductive dtype := float32 | float64.

(** [LEVY_AREA_APPROXIMATIONS]: the members the script can name; it uses
    [space_time] only. *)
Inductive levy_area := levy_none | space_time.

(** The sense of the stochastic integral (SDE_TYPES). *)
Inductive sde_type := ito | stratonovich.

Global Instance device_eq_dec : EqDecision device.
Proof. solve_decision. Defined.
Global Instance dtype_eq_dec : EqDecision dtype.
Proof. solve_decision. Defined.

(** A [torch.Tensor]: shape, row-major data, dtype and device. *)
Record Tensor := mkTensor {
  t_shape : list nat;
  t_data : list float;
  t_dtype : dtype;
  t_device : device
}.

(** A [numpy.ndarray]: host memory, so no device. *)
Record NDArray := mkArray {
  a_shape : list nat;
  a_data : list float;
  a_dtype : dtype
}.

(** What the script hands to [np.array] and [plt.plot]: an array, a tuple of
    Python floats ([dts]), or a Python list of arrays (the [*_mses_]). *)
Inductive ArrayLike :=
| AArray (a : NDArray)
| AFloats (l : list float)
| AArrays (l : list NDArray).

Record Line := mkLine { ln_x : ArrayLike; ln_y : ArrayLike; ln_label : string }.

(** A pyplot figure: the lines plotted so far, the axis scales, and whether
    [plt.legend()] was called. *)
Record Figure := mkFigure {
  fig_lines : list Line;
  fig_xscale : string;
  fig_yscale : string;
  fig_legend : bool
}.

Definition new_figure : Figure := mkFigure [] "linear" "linear" false.

(** Python objects the script holds references to.  An [Ex2] instance keeps
    its attribute [p] as a reference to a [Parameter] object. *)
Inductive Obj :=
| OParameter (value : Tensor)
| OEx2 (kind : sde_type) (d : nat) (p : nat)
| OBrownian (t0 t1 : Tensor) (shape : list nat) (dt : dtype) (dev : device)
            (levy : levy_area) (entropy : Z).

Inductive exn :=
| NameError (name : string)
| UnboundLocalError (name : string)
| ValueError
| TypeError
| IndexError
| RuntimeError
| FileExistsError (path : string)
| FileNotFoundError (path : string)
| NotADirectoryError (path : string).

(** The library calls of the script, as the trace records them. *)
Inductive Event :=
| EBindDevice (dev : device)
| ESetDefaultDtype (dt : dtype)
| EManualSeed (seed : Z)
| ENewTensor (t : Tensor)
| ENewEx2 (m : nat) (kind : sde_type) (d : nat) (p : nat)
| EModuleTo (m : nat) (dev : device)
| ESetP (m : nat) (p : nat)
| ENewBrownian (b : nat) (shape : list nat) (dt : dtype) (dev : device) (levy : levy_area)
| ESdeint (m p : nat) (pv y0 ts : Tensor) (dt : float) (b : nat)
          (method : string) (names : gmap string string) (res : Tensor)
| EAnalytical (m p : nat) (pv y0 ts : Tensor) (b : nat) (res : Tensor)
| EComputeMse (x y res : Tensor)
| EToNumpy (args : list Tensor) (res : list NDArray)
| ELinregress (x y : NDArray)
| EMakedirs (path : string)
| EFigure
| EPlot (ln : Line)
| EXScale (s : string)
| EYScale (s : string)
| ELegend
| ESavefig (fname : string)
| EClose.

(** ** The world *)

Record World := mkWorld {
  cuda_available : bool;            (* torch.cuda.is_available() *)
  glob_device : option device;      (* the module global [device] *)
  default_dtype : dtype;            (* torch.get_default_dtype() *)
  grad_enabled : bool;
  torch_rng : Z;                    (* state of torch's default generator *)
  entropy_src : Z;                  (* state of the source a path's entropy is drawn from *)
  next_id : nat;
  heap : gmap nat Obj;
  dirs : gset string;
  files : gmap string Figure;
  figs : list Figure;               (* open figures, the current one first *)
  trace : list Event
}.

Definition set_device (v : option device) (w : World) : World :=
  mkWorld (cuda_available w) v (default_dtype w) (grad_enabled w) (torch_rng w)
          (entropy_src w) (next_id w) (heap w) (dirs w) (files w) (figs w) (trace w).
Definition set_default_dtype (v : dtype) (w : World) : World :=
  mkWorld (cuda_available w) (glob_device w) v (grad_enabled w) (torch_rng w)
          (entropy_src w) (next_id w) (heap w) (dirs w) (files w) (figs w) (trace w).
Definition set_grad (v : bool) (w : World) : World :=
  mkWorld (cuda_available w) (glob_device w) (default_dtype w) v (torch_rng w)
          (entropy_src w) (next_id w) (heap w) (dirs w) (files w) (figs w) (trace w).
Definition set_rng (v : Z) (w : World) : World :=
  mkWorld (cuda_available w) (glob_device w) (default_dtype w) (grad_enabled w) v
          (entropy_src w) (next_id w) (heap w) (dirs w) (files w) (figs w) (trace w).
Definition set_entropy (v : Z) (w : World) : World :=
  mkWorld (cuda_available w) (glob_device w) (default_dtype w) (grad_enabled w) (torch_rng w)
          v (next_id w) (heap w) (dirs w) (files w) (figs w) (trace w).
Definition set_heap (n : nat) (h : gmap nat Obj) (w : World) : World :=
  mkWorld (cuda_available w) (glob_device w) (default_dtype w) (grad_enabled w) (torch_rng w)
          (entropy_src w) n h (dirs w) (files w) (figs w) (trace w).
Definition set_dirs (v : gset string) (w : World) : World :=
  mkWorld (cuda_available w) (glob_device w) (default_dtype w) (grad_enabled w) (torch_rng w)
          (entropy_src w) (next_id w) (heap w) v (files w) (figs w) (trace w).
Definition set_files (v : gmap string Figure) (w : World) : World :=
  mkWorld (cuda_available w) (glob_device w) (default_dtype w) (grad_enabled w) (torch_rng w)
          (entropy_src w) (next_id w) (heap w) (dirs w) v (figs w) (trace w).
Definition set_figs (v : list Figure) (w : World) : World :=
  mkWorld (cuda_available w) (glob_device w) (default_dtype w) (grad_enabled w) (torch_rng w)
          (entropy_src w) (next_id w) (heap w) (dirs w) (files w) v (trace w).
Definition set_trace (v : list Event) (w : World) : World :=
  mkWorld (cuda_available w) (glob_device w) (default_dtype w) (grad_enabled w) (torch_rng w)
          (entropy_src w) (next_id w) (heap w) (dirs w) (files w) (figs w) v.

(** A setter applied to a world given by its fields computes. *)
Arguments set_device v !w /.
Arguments set_default_dtype v !w /.
Arguments set_grad v !w /.
Arguments set_rng v !w /.
Arguments set_entropy v !w /.
Arguments set_heap n h !w /.
Arguments set_dirs v !w /.
Arguments set_files v !w /.
Arguments set_figs v !w /.
Arguments set_trace v !w /.

(** ** The monad: state, and exceptions that keep the state reached *)

Definition Res (A : Type) : Type := (exn + A) * World.
Definition M (A : Type) : Type := World -> Res A.

Definition ret {A} (a : A) : M A := fun w => (inr a, w).
Definition raise {A} (e : exn) : M A := fun w => (inl e, w).
Definition bind {A B} (k : A -> M B) (m : M A) : M B :=
  fun w => match m w with
           | (inl e, w') => (inl e, w')
           | (inr a, w') => k a w'
           end.

(** stdpp's monad notation: [x ← m; k] and [m;; k]. *)
Global Instance M_ret : MRet M := @ret.
Global Instance M_bind : MBind M := @bind.

Definition lift {A} (r : exn + A) : M A :=
  match r with inl e => raise e | inr a => ret a end.

Definition emit (e : Event) : M unit :=
  fun w => (inr tt, set_trace (trace w ++ [e]) w).

(** A fresh object: Python gives it an identity no other live object has. *)
Definition alloc (o : Obj) : M nat :=
  fun w => (inr (next_id w), set_heap (S (next_id w)) (<[next_id w := o]> (heap w)) w).

Definition deref (r : nat) : M Obj :=
  fun w => match heap w !! r with
           | Some o => (inr o, w)
           | None => (inl RuntimeError, w)
           end.

Definition store (r : nat) (o : Obj) : M unit :=
  fun w => (inr tt, set_heap (next_id w) (<[r := o]> (heap w)) w).

(** [for x in xs: body], the loop's local variables threaded as [s]. *)
Fixpoint for_each {A S} (xs : list A) (body : A -> S -> M S) (s : S) : M S :=
  match xs with
  | [] => ret s
  | x :: xs' => s' ← body x s; for_each xs' body s'
  end.

(** ** Tensors and arrays *)

Definition product (l : list nat) : nat := foldr Nat.mul 1 l.

(** The [i]-th block of [sz] elements. *)
Definition chunk (sz i : nat) (l : list float) : list float :=
  take sz (drop (i * sz) l).

(** Iterating a tensor yields its sub-tensors along the first dimension. *)
Definition tensor_rows (t : Tensor) : exn + list Tensor :=
  match t_shape t with
  | [] => inl TypeError
  | n :: sh =>
      inr (map (fun i => mkTensor sh (chunk (product sh) i (t_data t)) (t_dtype t) (t_device t))
               (seq 0 n))
  end.

Definition array_rows (a : NDArray) : exn + list NDArray :=
  match a_shape a with
  | [] => inl TypeError
  | n :: sh =>
      inr (map (fun i => mkArray sh (chunk (product sh) i (a_data a)) (a_dtype a)) (seq 0 n))
  end.

(** [t[i]] for a Python integer [i]: a negative index counts from the end. *)
Definition tensor_index (t : Tensor) (i : Z) : exn + Tensor :=
  match tensor_rows t with
  | inl _ => inl IndexError
  | inr rs =>
      let n := Z.of_nat (length rs) in
      let j := if (i <? 0)%Z then (i + n)%Z else i in
      if ((0 <=? j) && (j <? n))%Z
      then match rs !! Z.to_nat j with Some r => inr r | None => inl IndexError end
      else inl IndexError
  end.

(** [a, b = xs] *)
Definition unpack2 {A} (xs : list A) : exn + (A * A) :=
  match xs with [a; b] => inr (a, b) | _ => inl ValueError end.
Definition unpack3 {A} (xs : list A) : exn + (A * A * A) :=
  match xs with [a; b; c] => inr (a, b, c) | _ => inl ValueError end.
Definition unpack5 {A} (xs : list A) : exn + (A * A * A * A * A) :=
  match xs with [a; b; c; d; e] => inr (a, b, c, d, e) | _ => inl ValueError end.

(** [t.squeeze()]: every dimension of size 1 goes. *)
Definition squeeze (t : Tensor) : Tensor :=
  mkTensor (filter (fun n => n ≠ 1) (t_shape t)) (t_data t) (t_dtype t) (t_device t).

(** Row-major data of the transpose of an [m] by [n] matrix. *)
Definition transpose_data (m n : nat) (l : list float) : list float :=
  concat (map (fun j => concat (map (fun i => take 1 (drop (i * n + j) l)) (seq 0 m))) (seq 0 n)).

(** [t.t()]: transposes a matrix, leaves a vector or scalar, refuses more
    than two dimensions. *)
Definition tensor_t (t : Tensor) : exn + Tensor :=
  match t_shape t with
  | [] | [_] => inr t
  | [m; n] => inr (mkTensor [n; m] (transpose_data m n (t_data t)) (t_dtype t) (t_device t))
  | _ => inl RuntimeError
  end.

(** [zip(a, b, c, d)]: stops with the shortest. *)
Fixpoint zip4 {A} (a b c d : list A) : list (A * A * A * A) :=
  match a, b, c, d with
  | x :: a', y :: b', z :: c', u :: d' => (x, y, z, u) :: zip4 a' b' c' d'
  | _, _, _, _ => []
  end.

(** [enumerate(xs)] *)
Definition enumerate {A} (xs : list A) : list (nat * A) := zip (seq 0 (length xs)) xs.

(** [np.array(x)] *)
Definition np_array (x : ArrayLike) : exn + NDArray :=
  match x with
  | AArray a => inr a
  | AFloats l => inr (mkArray [length l] l float64)
  | AArrays [] => inr (mkArray [0] [] float64)
  | AArrays (a :: l) =>
      if forallb (fun b => bool_decide (a_shape b = a_shape a ∧ a_dtype b = a_dtype a)) l
      then inr (mkArray (S (length l) :: a_shape a) (concat (map a_data (a :: l))) (a_dtype a))
      else inl ValueError
  end.

(** [a / 2] on an array *)
Definition array_halve (a : NDArray) : NDArray :=
  mkArray (a_shape a) (map (fun x => (x / 2)%float) (a_data a)) (a_dtype a).

(** ** Paths *)

Definition is_slash (c : ascii) : bool := bool_decide (c = "/"%char).

Definition ends_with_slash (s : string) : bool :=
  match reverse (list_ascii_of_string s) with
  | c :: _ => is_slash c
  | [] => false
  end.

(** [posixpath.join] of two components, then of many. *)
Definition join2 (a b : string) : string :=
  match b with
  | String "/" _ => b
  | _ => if bool_decide (a = "") || ends_with_slash a then a +:+ b else a +:+ "/" +:+ b
  end.

Definition os_path_join (a : string) (ps : list string) : string := foldl join2 a ps.

Fixpoint drop_while {A} (f : A -> bool) (l : list A) : list A :=
  match l with
  | [] => []
  | x :: l' => if f x then drop_while f l' else l
  end.

(** [posixpath.dirname] *)
Definition dirname (p : string) : string :=
  let head := reverse (drop_while (fun c => negb (is_slash c)) (reverse (list_ascii_of_string p))) in
  if forallb is_slash head then string_of_list_ascii head
  else string_of_list_ascii (reverse (drop_while is_slash (reverse head))).

(** The directories above [p], nearest first. *)
Fixpoint ancestors (fuel : nat) (p : string) : list string :=
  match fuel with
  | 0 => []
  | S f => let h := dirname p in
           if bool_decide (h = "" ∨ h = p) then [] else h :: ancestors f h
  end.

(** The file [savefig] writes: matplotlib appends the default format's
    extension to a name that has none (neither name the script uses has). *)
Definition savefig_target (fname : string) : string := fname +:+ ".png".

(** ** What the libraries compute

    The numerical content of the external calls: any functions will do. *)

(** What [scipy.stats.linregress] returns, a named 5-tuple. *)
Record LinregressResult := mkLinregress {
  slope : float;
  intercept : float;
  rvalue : float;
  pvalue : float;
  stderr : float
}.

Record Lib := mkLib {
  (* torch.manual_seed: the generator state a seed gives *)
  seed_state : Z -> Z;
  (* Ex2.__init__: the initial values of p, drawn from torch's generator *)
  ex2_values : Z -> nat -> list float * Z;
  (* BrownianInterval(entropy=None): the entropy of the path, and the random
     sources after drawing it *)
  draw_entropy : Z -> Z -> Z * Z * Z;
  linspace_values : float -> float -> nat -> list float;
  (* sdeint: model kind, value of p, y0, ts, dt, the path object, method, names *)
  solver_values : sde_type -> Tensor -> Tensor -> Tensor -> float -> Obj ->
                  string -> gmap string string -> list float;
  (* Ex2.analytical_sample: value of p, y0, ts, the path object *)
  analytical_values : Tensor -> Tensor -> Tensor -> Obj -> list float;
  mse_value : Tensor -> Tensor -> float;
  np_log : float -> float;
  (* scipy.stats.linregress: the least-squares line through (x, y) *)
  linregress : NDArray -> NDArray -> LinregressResult;
  (* format(x, '.4f') *)
  format_4f : float -> string
}.

Record Args := mkArgs { no_gpu : bool }.

Module Script.
Section WithLib.
Variable L : Lib.

(** *** torch *)

(** Reading the module global [device]. *)
Definition global_device : M device :=
  fun w => match glob_device w with
           | Some dev => (inr dev, w)
           | None => (inl (NameError "device"), w)
           end.

Definition bind_global_device (dev : device) : M unit :=
  fun w => (inr tt, set_trace (trace w ++ [EBindDevice dev]) (set_device (Some dev) w)).

Definition torch_cuda_is_available : M bool := fun w => (inr (cuda_available w), w).

Definition torch_set_default_dtype (dt : dtype) : M unit :=
  fun w => (inr tt, set_trace (trace w ++ [ESetDefaultDtype dt]) (set_default_dtype dt w)).

Definition torch_manual_seed (seed : Z) : M unit :=
  fun w => (inr tt, set_trace (trace w ++ [EManualSeed seed]) (set_rng (seed_state L seed) w)).

(** A new floating-point tensor takes the default dtype. *)
Definition new_tensor (shape : list nat) (data : list float) (dev : device) : M Tensor :=
  fun w => let t := mkTensor shape data (default_dtype w) dev in
           (inr t, set_trace (trace w ++ [ENewTensor t]) w).

Definition torch_linspace (a b : float) (steps : nat) (dev : device) : M Tensor :=
  new_tensor [steps] (linspace_values L a b steps) dev.

Definition torch_ones (shape : list nat) (dev : device) : M Tensor :=
  new_tensor shape (replicate (product shape) 1%float) dev.

Definition torch_tensor (data : list float) (dev : device) : M Tensor :=
  new_tensor [length data] data dev.

(** [with torch.no_grad(): body]: the previous mode comes back on exit,
    exception or not. *)
Definition no_grad {A} (body : M A) : M A :=
  fun w => let prev := grad_enabled w in
           let '(r, w') := body (set_grad false w) in
           (r, set_grad prev w').

(** [module.to(device)]: the data of the module's parameter moves, the
    Parameter object stays; returns the module. *)
Definition module_to (m : nat) (dev : device) : M nat :=
  o ← deref m;
  match o with
  | OEx2 _ _ p =>
      po ← deref p;
      match po with
      | OParameter v =>
          store p (OParameter (mkTensor (t_shape v) (t_data v) (t_dtype v) dev));;
          emit (EModuleTo m dev);;
          mret m
      | _ => raise RuntimeError
      end
  | _ => raise RuntimeError
  end.

(** *** tests.problems.Ex2 *)

(** Modelled from the spec: the class Ex2 of tests/problems.py, which is not
    among the sources.  A model instance has a dimension count, an
    interpretation flag and one parameter [p]; the constructor makes a new
    Parameter of [d] values. *)
Definition Ex2 (d : nat) (kind : sde_type) : M nat :=
  fun w =>
    let r := ex2_values L (torch_rng w) d in
    (p ← alloc (OParameter (mkTensor [d] r.1 (default_dtype w) cpu));
     m ← alloc (OEx2 kind d p);
     emit (ENewEx2 m kind d p);;
     mret m) (set_rng r.2 w).

(** [m.p] *)
Definition get_p (m : nat) : M nat :=
  o ← deref m;
  match o with
  | OEx2 _ _ p => mret p
  | _ => raise RuntimeError
  end.

(** [m.p = p] *)
Definition set_p (m : nat) (p : nat) : M unit :=
  o ← deref m;
  match o with
  | OEx2 kind d _ => store m (OEx2 kind d p);; emit (ESetP m p)
  | _ => raise RuntimeError
  end.

(** The value of a model's parameter, as a call on the model reads it. *)
Definition read_model (m : nat) : M (sde_type * nat * Tensor) :=
  o ← deref m;
  match o with
  | OEx2 kind _ p =>
      po ← deref p;
      match po with
      | OParameter v => mret (kind, p, v)
      | _ => raise RuntimeError
      end
  | _ => raise RuntimeError
  end.

(** Modelled from the spec: Ex2.analytical_sample of tests/problems.py, not
    among the sources.  The closed-form solution on the time grid [ts], one
    state tensor of the shape of [y0] per time point. *)
Definition analytical_sample (m : nat) (y0 ts : Tensor) (b : nat) : M Tensor :=
  '(_, p, pv) ← read_model m;
  bo ← deref b;
  match t_shape ts with
  | [n] =>
      let res := mkTensor (n :: t_shape y0) (analytical_values L pv y0 ts bo)
                          (t_dtype y0) (t_device y0) in
      emit (EAnalytical m p pv y0 ts b res);;
      mret res
  | _ => raise ValueError
  end.

(** *** torchsde *)

(** Modelled from the spec: BrownianInterval of torchsde, not among the
    sources.  One object is one realization of the path: the entropy drawn
    when it is built fixes every increment it will ever return. *)
Definition BrownianInterval (t0 t1 : Tensor) (shape : list nat) (dt : dtype) (dev : device)
    (levy : levy_area) : M nat :=
  fun w =>
    let r := draw_entropy L (torch_rng w) (entropy_src w) in
    (b ← alloc (OBrownian t0 t1 shape dt dev levy r.1.1);
     emit (ENewBrownian b shape dt dev levy);;
     mret b) (set_entropy r.2 (set_rng r.1.2 w)).

(** Modelled from the spec: sdeint of torchsde, not among the sources.  The
    numerical solution on the time grid [ts], one state tensor of the shape
    of [y0] per time point. *)
Definition sdeint (m : nat) (y0 ts : Tensor) (dt : float) (b : nat) (method : string)
    (names : gmap string string) : M Tensor :=
  '(kind, p, pv) ← read_model m;
  bo ← deref b;
  match t_shape ts with
  | [n] =>
      let res := mkTensor (n :: t_shape y0) (solver_values L kind pv y0 ts dt bo method names)
                          (t_dtype y0) (t_device y0) in
      emit (ESdeint m p pv y0 ts dt b method names res);;
      mret res
  | _ => raise ValueError
  end.

(** *** diagnostics.utils *)

(** Modelled from the spec: to_numpy of diagnostics/utils.py, not among the
    sources.  Each tensor becomes a numpy array of the same shape, values and
    precision, in host memory. *)
Definition tensor_to_numpy (t : Tensor) : NDArray :=
  mkArray (t_shape t) (t_data t) (t_dtype t).

Definition to_numpy (args : list Tensor) : M (list NDArray) :=
  let res := map tensor_to_numpy args in
  emit (EToNumpy args res);;
  mret res.

(** Modelled from the spec: compute_mse of diagnostics/utils.py, not among
    the sources.  The mean squared error of [x] against [y], one scalar, in
    the device and precision of [x]. *)
Definition compute_mse (x y : Tensor) : M Tensor :=
  let res := mkTensor [] [mse_value L x y] (t_dtype x) (t_device x) in
  emit (EComputeMse x y res);;
  mret res.

Definition path_exists (p : string) : M bool :=
  fun w => (inr (bool_decide (p ∈ dirs w ∨ p ∈ dom (files w))), w).

(** [os.makedirs(p)]: refuses an existing path; makes the missing
    directories above [p] too.  Not modelled: a regular file among the
    directories above [p], where the call raises NotADirectoryError. *)
Definition os_makedirs (p : string) : M unit :=
  e ← path_exists p;
  if e : bool then raise (FileExistsError p)
  else fun w =>
    (inr tt,
     set_trace (trace w ++ [EMakedirs p])
       (set_dirs ({[p]} ∪ list_to_set (ancestors (String.length p) p) ∪ dirs w) w)).

(** Modelled from the spec: makedirs_if_not_found of diagnostics/utils.py,
    not among the sources.  Creates the directory if it is absent. *)
Definition makedirs_if_not_found (p : string) : M unit :=
  e ← path_exists p;
  if e : bool then mret tt else os_makedirs p.

(** *** numpy and scipy *)

Definition np_log_array (a : NDArray) : NDArray :=
  mkArray (a_shape a) (map (np_log L) (a_data a)) (a_dtype a).

(** [log = lambda x: np.log(np.array(x))] *)
Definition log (x : ArrayLike) : M NDArray :=
  a ← lift (np_array x); mret (np_log_array a).

Definition stats_linregress (x y : NDArray) : M LinregressResult :=
  emit (ELinregress x y);;
  mret (linregress L x y).

(** *** matplotlib.pyplot *)

Definition plt_figure : M unit :=
  fun w => (inr tt, set_trace (trace w ++ [EFigure]) (set_figs (new_figure :: figs w) w)).

(** The current figure, made on demand. *)
Definition on_current (f : Figure -> Figure) (fs : list Figure) : list Figure :=
  match fs with
  | [] => [f new_figure]
  | fg :: rest => f fg :: rest
  end.

Definition plt_plot (x y : ArrayLike) (label : string) : M unit :=
  fun w =>
    let ln := mkLine x y label in
    (inr tt,
     set_trace (trace w ++ [EPlot ln])
       (set_figs (on_current (fun fg => mkFigure (fig_lines fg ++ [ln]) (fig_xscale fg)
                                          (fig_yscale fg) (fig_legend fg)) (figs w)) w)).

Definition plt_xscale (s : string) : M unit :=
  fun w =>
    (inr tt,
     set_trace (trace w ++ [EXScale s])
       (set_figs (on_current (fun fg => mkFigure (fig_lines fg) s (fig_yscale fg) (fig_legend fg))
                             (figs w)) w)).

Definition plt_yscale (s : string) : M unit :=
  fun w =>
    (inr tt,
     set_trace (trace w ++ [EYScale s])
       (set_figs (on_current (fun fg => mkFigure (fig_lines fg) (fig_xscale fg) s (fig_legend fg))
                             (figs w)) w)).

Definition plt_legend : M unit :=
  fun w =>
    (inr tt,
     set_trace (trace w ++ [ELegend])
       (set_figs (on_current (fun fg => mkFigure (fig_lines fg) (fig_xscale fg) (fig_yscale fg) true)
                             (figs w)) w)).

(** Why a file of the directory [d] cannot be opened when [d] is not a
    directory: a regular file is on the way, or the directory is missing. *)
Definition open_error (d target : string) (w : World) : exn :=
  if bool_decide (Exists (fun a => a ∈ dom (files w)) (d :: ancestors (String.length d) d))
  then NotADirectoryError target
  else FileNotFoundError target.

(** [plt.savefig(fname)]: the current figure goes to a file of the directory
    of [fname], which has to exist.  Not modelled: a directory that has the
    name of the file itself, where the call raises IsADirectoryError. *)
Definition plt_savefig (fname : string) : M unit :=
  fun w =>
    let fs := on_current (fun fg => fg) (figs w) in
    if bool_decide (dirname fname ∈ dirs w)
    then (inr tt,
          set_trace (trace w ++ [ESavefig fname])
            (set_files (<[savefig_target fname := default new_figure (head fs)]> (files w))
               (set_figs fs w)))
    else (inl (open_error (dirname fname) (savefig_target fname) w), set_figs fs w).

(** [plt.close()]: the current figure, if there is one. *)
Definition plt_close : M unit :=
  fun w => (inr tt, set_trace (trace w ++ [EClose]) (set_figs (tail (figs w)) w)).

(** *** The script *)

(** [_, ys = t]: the tensor is iterated along its first dimension. *)
Definition unpack_pair (t : Tensor) : exn + (Tensor * Tensor) :=
  match tensor_rows t with
  | inl e => inl e
  | inr rs => unpack2 rs
  end.

(** The body of the plotting loop of [inspect_sample]. *)
Definition inspect_sample_body (ts_ : NDArray) (img_dir : string)
    (x : nat * (NDArray * NDArray * NDArray * NDArray)) (_ : unit) : M unit :=
  let '(i, (ys_euler_i, ys_heun_i, ys_midpoint_i, ys_analytical_i)) := x in
  plt_figure;;
  plt_plot (AArray ts_) (AArray ys_euler_i) "euler";;
  plt_plot (AArray ts_) (AArray ys_heun_i) "heun";;
  plt_plot (AArray ts_) (AArray ys_midpoint_i) "midpoint";;
  plt_plot (AArray ts_) (AArray ys_analytical_i) "analytical";;
  plt_legend;;
  plt_savefig (os_path_join img_dir [pretty i]);;
  plt_close.

Definition drift_f_corr : gmap string string := {["drift" := "f_corr"]}.

Definition inspect_sample : M unit :=
  let batch_size := 32 in
  let d := 1 in
  let steps := 100 in
  dev ← global_device;
  ts ← torch_linspace 0 5 steps dev;
  let dt := 0x1.999999999999ap-4%float in  (* 1e-1 *)
  dev ← global_device;
  y0 ← torch_ones [batch_size; d] dev;
  m ← Ex2 d ito;
  dev ← global_device;
  sde ← module_to m dev;
  m ← Ex2 d stratonovich;
  dev ← global_device;
  sde_strat ← module_to m dev;
  p ← get_p sde;
  set_p sde_strat p;;
  '(ts_, ys_euler_, ys_heun_, ys_midpoint_, ys_analytical_) ←
    no_grad (
      t0 ← lift (tensor_index ts 0);
      t1 ← lift (tensor_index ts (-1));
      dev ← global_device;
      bm ← BrownianInterval t0 t1 (t_shape y0) (t_dtype y0) dev space_time;
      ys_euler ← sdeint sde y0 ts dt bm "euler" ∅;
      ys_heun ← sdeint sde_strat y0 ts dt bm "heun" drift_f_corr;
      ys_midpoint ← sdeint sde_strat y0 ts dt bm "midpoint" drift_f_corr;
      ys_analytical ← analytical_sample sde y0 ts bm;
      ys_euler ← lift (tensor_t (squeeze ys_euler));
      ys_heun ← lift (tensor_t (squeeze ys_heun));
      ys_midpoint ← lift (tensor_t (squeeze ys_midpoint));
      ys_analytical ← lift (tensor_t (squeeze ys_analytical));
      arrs ← to_numpy [ts; ys_euler; ys_heun; ys_midpoint; ys_analytical];
      lift (unpack5 arrs));
  (* Visualize sample path. *)
  let img_dir := os_path_join "." ["diagnostics"; "plots"; "stratonovich_diagonal"] in
  makedirs_if_not_found img_dir;;
  re ← lift (array_rows ys_euler_);
  rh ← lift (array_rows ys_heun_);
  rm ← lift (array_rows ys_midpoint_);
  ra ← lift (array_rows ys_analytical_);
  for_each (enumerate (zip4 re rh rm ra)) (inspect_sample_body ts_ img_dir) tt.

(** [2 ** -i] on Python integers: the float 2^-i, exact in binary64. *)
Definition pow2_neg (i : nat) : float := Z.ldexp 1 (- Z.of_nat i).

(** [tuple(2 ** -i for i in range(1, 9))] *)
Definition dts : list float := map pow2_neg (seq 1 8).

(** The local variables the loop of [inspect_strong_order] assigns: the
    three lists, and the names [euler_mse_, heun_mse_, midpoint_mse_], bound
    from the first pass on. *)
Record LoopVars := mkLoopVars {
  euler_mses_ : list NDArray;
  heun_mses_ : list NDArray;
  midpoint_mses_ : list NDArray;
  last_mse_ : option (NDArray * NDArray * NDArray)
}.

(** The body of the loop of [inspect_strong_order]. *)
Definition inspect_strong_order_body (sde sde_strat : nat) (y0 ts : Tensor) (bm : nat)
    (dt : float) (v : LoopVars) : M LoopVars :=
  (* Only take end value. *)
  r ← sdeint sde y0 ts dt bm "euler" ∅;
  '(_, ys_euler) ← lift (unpack_pair r);
  r ← sdeint sde_strat y0 ts dt bm "heun" drift_f_corr;
  '(_, ys_heun) ← lift (unpack_pair r);
  r ← sdeint sde_strat y0 ts dt bm "midpoint" drift_f_corr;
  '(_, ys_midpoint) ← lift (unpack_pair r);
  r ← analytical_sample sde y0 ts bm;
  '(_, ys_analytical) ← lift (unpack_pair r);
  euler_mse ← compute_mse ys_euler ys_analytical;
  heun_mse ← compute_mse ys_heun ys_analytical;
  midpoint_mse ← compute_mse ys_midpoint ys_analytical;
  arrs ← to_numpy [euler_mse; heun_mse; midpoint_mse];
  '(euler_mse_, heun_mse_, midpoint_mse_) ← lift (unpack3 arrs);
  mret (mkLoopVars (euler_mses_ v ++ [euler_mse_]) (heun_mses_ v ++ [heun_mse_])
                   (midpoint_mses_ v ++ [midpoint_mse_])
                   (Some (euler_mse_, heun_mse_, midpoint_mse_))).

(** [f'{name}(k={slope:.4f})'] *)
Definition rate_label (name : string) (slope : float) : string :=
  name +:+ "(k=" +:+ format_4f L slope +:+ ")".

Definition inspect_strong_order : M unit :=
  let batch_size := 4096 in
  let d := 10 in
  dev ← global_device;
  ts ← torch_tensor [0%float; 5%float] dev;
  let dts := dts in
  dev ← global_device;
  y0 ← torch_ones [batch_size; d] dev;
  m ← Ex2 d ito;
  dev ← global_device;
  sde ← module_to m dev;
  m ← Ex2 d stratonovich;
  dev ← global_device;
  sde_strat ← module_to m dev;
  p ← get_p sde;
  set_p sde_strat p;;
  v ← no_grad (
      t0 ← lift (tensor_index ts 0);
      t1 ← lift (tensor_index ts (-1));
      dev ← global_device;
      bm ← BrownianInterval t0 t1 (t_shape y0) (t_dtype y0) dev space_time;
      (* tqdm.tqdm(dts) yields the elements of dts *)
      for_each dts (inspect_strong_order_body sde sde_strat y0 ts bm)
               (mkLoopVars [] [] [] None));
  (* del euler_mse_, heun_mse_, midpoint_mse_ *)
  match last_mse_ v with
  | None => raise (UnboundLocalError "euler_mse_")
  | Some _ => mret tt
  end;;
  (* Divide the log-error by 2, since textbook strong orders are represented so. *)
  lx ← log (AFloats dts);
  ly ← log (AArrays (euler_mses_ v));
  r ← stats_linregress lx (array_halve ly);
  let euler_slope := slope r in  (* euler_slope, _, _, _, _ = ... *)
  lx ← log (AFloats dts);
  ly ← log (AArrays (heun_mses_ v));
  r ← stats_linregress lx (array_halve ly);
  let heun_slope := slope r in  (* heun_slope, _, _, _, _ = ... *)
  lx ← log (AFloats dts);
  ly ← log (AArrays (midpoint_mses_ v));
  r ← stats_linregress lx (array_halve ly);
  let midpoint_slope := slope r in  (* midpoint_slope, _, _, _, _ = ... *)
  plt_figure;;
  plt_plot (AFloats dts) (AArrays (euler_mses_ v)) (rate_label "euler" euler_slope);;
  plt_plot (AFloats dts) (AArrays (heun_mses_ v)) (rate_label "heun" heun_slope);;
  plt_plot (AFloats dts) (AArrays (midpoint_mses_ v)) (rate_label "midpoint" midpoint_slope);;
  plt_xscale "log";;
  plt_yscale "log";;
  plt_legend;;
  let img_dir := os_path_join "." ["diagnostics"; "plots"; "stratonovich_diagonal"] in
  makedirs_if_not_found img_dir;;
  plt_savefig (os_path_join img_dir ["rate"]);;
  plt_close.

(** The block under [if __name__ == '__main__'], [args] being what argparse
    read from the command line ([--no-gpu] sets [no_gpu]). *)
Definition main (args : Args) : M unit :=
  avail ← torch_cuda_is_available;
  bind_global_device (if avail && negb (no_gpu args) then cuda else cpu);;
  torch_set_default_dtype float64;;
  torch_manual_seed 0;;
  inspect_sample;;
  inspect_strong_order.

End WithLib.
End Script.

(** ** What a run is expected to leave behind

    The same procedures told declaratively: the objects the setup builds,
    the calls in the order they are made, the files written.  The theorems
    below show that running the script gives exactly this. *)

Module Expected.
Section WithLib.
Variable L : Lib.

(** The directory both procedures write to. *)
Definition img_dir : string := "./diagnostics/plots/stratonovich_diagonal".

Definition path_present (p : string) (ds : gset string) (fs : gmap string Figure) : bool :=
  bool_decide (p ∈ ds ∨ p ∈ dom fs).

(** The directories once [makedirs_if_not_found p] has run. *)
Definition dirs_after (p : string) (ds : gset string) (fs : gmap string Figure) : gset string :=
  if path_present p ds fs then ds
  else {[p]} ∪ list_to_set (ancestors (String.length p) p) ∪ ds.

Definition makedirs_events (p : string) (ds : gset string) (fs : gmap string Figure) : list Event :=
  if path_present p ds fs then [] else [EMakedirs p].

(** The output path is free or a directory already: no regular file of
    that name is in the way. *)
Definition fs_ready (w : World) : Prop :=
  img_dir ∈ dirs w \/ img_dir ∉ dom (files w).

(** What the solver calls need of the heap: the two models refer to one
    parameter object, and the path object is there. *)
Definition solver_heap (sde strat d d' p : nat) (pv : Tensor) (b : nat) (bo : Obj)
    (w : World) : Prop :=
  heap w !! sde = Some (OEx2 ito d p) /\
  heap w !! strat = Some (OEx2 stratonovich d' p) /\
  heap w !! p = Some (OParameter pv) /\
  heap w !! b = Some bo.

(** [t[i]] of a vector: the scalar at position [i]. *)
Definition time_point (ts : Tensor) (i : nat) : Tensor :=
  mkTensor [] (chunk (product []) i (t_data ts)) (t_dtype ts) (t_device ts).

(** *** The solver calls, given the objects they are made on *)

Section Calls.
(** The two models, the parameter both refer to and its value, the initial
    state, the time grid and its number of points, the path object. *)
Variables (sde strat p : nat) (pv y0 ts : Tensor) (n : nat) (bm : nat) (bo : Obj).

(** What [sdeint] returns for a model kind, a method and a step size, and
    what [analytical_sample] returns. *)
Definition solution (kind : sde_type) (method : string) (names : gmap string string)
    (dt : float) : Tensor :=
  mkTensor (n :: t_shape y0) (solver_values L kind pv y0 ts dt bo method names)
           (t_dtype y0) (t_device y0).

Definition euler_solution := solution ito "euler" ∅.
Definition heun_solution := solution stratonovich "heun" Script.drift_f_corr.
Definition midpoint_solution := solution stratonovich "midpoint" Script.drift_f_corr.

Definition exact_solution : Tensor :=
  mkTensor (n :: t_shape y0) (analytical_values L pv y0 ts bo) (t_dtype y0) (t_device y0).

Definition euler_call (dt : float) : Event :=
  ESdeint sde p pv y0 ts dt bm "euler" ∅ (euler_solution dt).
Definition heun_call (dt : float) : Event :=
  ESdeint strat p pv y0 ts dt bm "heun" Script.drift_f_corr (heun_solution dt).
Definition midpoint_call (dt : float) : Event :=
  ESdeint strat p pv y0 ts dt bm "midpoint" Script.drift_f_corr (midpoint_solution dt).
Definition exact_call : Event :=
  EAnalytical sde p pv y0 ts bm exact_solution.

(** **** One pass of the estimator's loop *)

(** The state at the second of two time points. *)
Definition end_value (r : Tensor) : Tensor :=
  mkTensor (t_shape y0) (chunk (product (t_shape y0)) 1 (t_data r)) (t_dtype r) (t_device r).

(** The mean squared error of the end value of a solution against the end
    value of the closed form: a scalar tensor, then a scalar array. *)
Definition mse (r : Tensor) : Tensor :=
  mkTensor [] [mse_value L (end_value r) (end_value exact_solution)]
           (t_dtype (end_value r)) (t_device (end_value r)).

Definition mse_ (sol : float -> Tensor) (dt : float) : NDArray :=
  Script.tensor_to_numpy (mse (sol dt)).

Definition step_events (dt : float) : list Event :=
  [euler_call dt; heun_call dt; midpoint_call dt; exact_call;
   EComputeMse (end_value (euler_solution dt)) (end_value exact_solution)
               (mse (euler_solution dt));
   EComputeMse (end_value (heun_solution dt)) (end_value exact_solution)
               (mse (heun_solution dt));
   EComputeMse (end_value (midpoint_solution dt)) (end_value exact_solution)
               (mse (midpoint_solution dt));
   EToNumpy [mse (euler_solution dt); mse (heun_solution dt); mse (midpoint_solution dt)]
            [mse_ euler_solution dt; mse_ heun_solution dt; mse_ midpoint_solution dt]].

(** The loop's variables after passes over the step sizes [l]. *)
Definition vars_after (v : Script.LoopVars) (l : list float) : Script.LoopVars :=
  Script.mkLoopVars
    (Script.euler_mses_ v ++ map (mse_ euler_solution) l)
    (Script.heun_mses_ v ++ map (mse_ heun_solution) l)
    (Script.midpoint_mses_ v ++ map (mse_ midpoint_solution) l)
    (foldl (fun _ dt => Some (mse_ euler_solution dt, mse_ heun_solution dt,
                              mse_ midpoint_solution dt))
           (Script.last_mse_ v) l).

(** **** After the loop: one regression per method *)

(** The MSE of a method, one per step size. *)
Definition mses (sol : float -> Tensor) : list NDArray := map (mse_ sol) Script.dts.

(** [np.array] of that list: a vector as long as the list of step sizes. *)
Definition mses_array (sol : float -> Tensor) : NDArray :=
  mkArray [length Script.dts]
          (map (fun dt => mse_value L (end_value (sol dt)) (end_value exact_solution)) Script.dts)
          (t_dtype y0).

Definition log_dts : NDArray :=
  Script.np_log_array L (mkArray [length Script.dts] Script.dts float64).

Definition half_log_mses (sol : float -> Tensor) : NDArray :=
  array_halve (Script.np_log_array L (mses_array sol)).

(** The slope of the least-squares line through (log dt, log MSE / 2). *)
Definition order (sol : float -> Tensor) : float :=
  slope (linregress L log_dts (half_log_mses sol)).

Definition rate_line (name : string) (sol : float -> Tensor) : Line :=
  mkLine (AFloats Script.dts) (AArrays (mses sol)) (Script.rate_label L name (order sol)).

Definition rate_lines : list Line :=
  [rate_line "euler" euler_solution; rate_line "heun" heun_solution;
   rate_line "midpoint" midpoint_solution].

Definition rate_figure : Figure := mkFigure rate_lines "log" "log" true.

Definition regression_events : list Event :=
  [ELinregress log_dts (half_log_mses euler_solution);
   ELinregress log_dts (half_log_mses heun_solution);
   ELinregress log_dts (half_log_mses midpoint_solution)].

Definition rate_plot_events : list Event :=
  [EFigure; EPlot (rate_line "euler" euler_solution); EPlot (rate_line "heun" heun_solution);
   EPlot (rate_line "midpoint" midpoint_solution);
   EXScale "log"; EYScale "log"; ELegend].

End Calls.

(** *** The setup both procedures start with *)

Section Setup.
(** The world at entry, the device the global is bound to, the time grid
    and its number of points, the batch size and the dimension. *)
Variables (w : World) (dev : device) (ts : Tensor) (n batch d : nat).

Definition y0 : Tensor :=
  mkTensor [batch; d] (replicate (product [batch; d]) 1%float) (default_dtype w) dev.

(** The three draws from the random sources, in order: the parameter of the
    first model, the parameter of the second, the entropy of the path. *)
Definition draw_p := ex2_values L (torch_rng w) d.
Definition draw_p' := ex2_values L (draw_p.2) d.
Definition draw_path := draw_entropy L (draw_p'.2) (entropy_src w).

(** The references the new objects get. *)
Definition p_ref : nat := next_id w.
Definition sde_ref : nat := S (next_id w).
Definition p'_ref : nat := S (S (next_id w)).
Definition strat_ref : nat := S (S (S (next_id w))).
Definition bm_ref : nat := S (S (S (S (next_id w)))).

Definition p_value (on : device) : Tensor := mkTensor [d] (draw_p.1) (default_dtype w) on.
Definition p'_value (on : device) : Tensor := mkTensor [d] (draw_p'.1) (default_dtype w) on.

Definition bm_obj : Obj :=
  OBrownian (time_point ts 0) (time_point ts (pred n)) [batch; d] (default_dtype w) dev
            space_time (draw_path.1.1).

Definition heap_after : gmap nat Obj :=
  <[bm_ref := bm_obj]>
  (<[strat_ref := OEx2 stratonovich d p_ref]>
  (<[p'_ref := OParameter (p'_value dev)]>
  (<[strat_ref := OEx2 stratonovich d p'_ref]>
  (<[p'_ref := OParameter (p'_value cpu)]>
  (<[p_ref := OParameter (p_value dev)]>
  (<[sde_ref := OEx2 ito d p_ref]>
  (<[p_ref := OParameter (p_value cpu)]> (heap w)))))))).

Definition setup_events : list Event :=
  [ENewTensor ts; ENewTensor y0;
   ENewEx2 sde_ref ito d p_ref; EModuleTo sde_ref dev;
   ENewEx2 strat_ref stratonovich d p'_ref; EModuleTo strat_ref dev;
   ESetP strat_ref p_ref;
   ENewBrownian bm_ref [batch; d] (default_dtype w) dev space_time].

(** The world a successful run of a procedure ends in, given the events it
    adds and the files it leaves. *)
Definition world_after (evs : list Event) (fs : gmap string Figure) : World :=
  mkWorld (cuda_available w) (glob_device w) (default_dtype w) (grad_enabled w)
          (draw_path.1.2) (draw_path.2) (S bm_ref) heap_after
          (dirs_after img_dir (dirs w) (files w)) fs (figs w) (trace w ++ evs).

End Setup.

(** *** The strong-order estimator *)

Section Estimator.
(** The world at entry, the device, the batch size and the dimension. *)
Variables (w : World) (dev : device) (batch d : nat).

Definition est_ts : Tensor := mkTensor [2] [0%float; 5%float] (default_dtype w) dev.
Definition est_y0 : Tensor := y0 w dev batch d.
Definition est_bm : Obj := bm_obj w dev est_ts 2 batch d.
Definition est_pv : Tensor := p_value w d dev.

(** The solutions of the three methods at a step size. *)
Definition est_euler := euler_solution est_pv est_y0 est_ts 2 est_bm.
Definition est_heun := heun_solution est_pv est_y0 est_ts 2 est_bm.
Definition est_midpoint := midpoint_solution est_pv est_y0 est_ts 2 est_bm.
Definition est_exact := exact_solution est_pv est_y0 est_ts 2 est_bm.

(** The MSE of a method at a step size, as the script's lists hold it. *)
Definition est_mse_ (sol : float -> Tensor) (dt : float) : NDArray :=
  mse_ est_pv est_y0 est_ts 2 est_bm sol dt.

(** The strong order the script reports for a method. *)
Definition est_order (sol : float -> Tensor) : float :=
  order est_pv est_y0 est_ts 2 est_bm sol.

Definition est_step_events (dt : float) : list Event :=
  step_events (sde_ref w) (strat_ref w) (p_ref w) est_pv est_y0 est_ts 2 (bm_ref w) est_bm dt.

Definition est_rate_figure : Figure := rate_figure est_pv est_y0 est_ts 2 est_bm.

Definition rate_file : string := img_dir +:+ "/rate".

Definition estimator_events : list Event :=
  setup_events w dev est_ts batch d ++
  flat_map est_step_events Script.dts ++
  regression_events est_pv est_y0 est_ts 2 est_bm ++
  rate_plot_events est_pv est_y0 est_ts 2 est_bm ++
  makedirs_events img_dir (dirs w) (files w) ++
  [ESavefig rate_file; EClose].

Definition estimator_world : World :=
  world_after w dev est_ts 2 batch d estimator_events
              (<[savefig_target rate_file := est_rate_figure]> (files w)).

End Estimator.

(** *** The sample-path comparison *)

Section Sample.
Variables (w : World) (dev : device).

Definition smp_ts : Tensor :=
  mkTensor [100] (linspace_values L 0 5 100) (default_dtype w) dev.
Definition smp_dt : float := 0x1.999999999999ap-4%float.
Definition smp_y0 : Tensor := y0 w dev 32 1.
Definition smp_bm : Obj := bm_obj w dev smp_ts 100 32 1.
Definition smp_pv : Tensor := p_value w 1 dev.

Definition smp_euler : Tensor := euler_solution smp_pv smp_y0 smp_ts 100 smp_bm smp_dt.
Definition smp_heun : Tensor := heun_solution smp_pv smp_y0 smp_ts 100 smp_bm smp_dt.
Definition smp_midpoint : Tensor := midpoint_solution smp_pv smp_y0 smp_ts 100 smp_bm smp_dt.
Definition smp_exact : Tensor := exact_solution smp_pv smp_y0 smp_ts 100 smp_bm.

(** [r.squeeze().t()] of a solution: one row per batch element, one column
    per time point. *)
Definition paths (r : Tensor) : Tensor :=
  mkTensor [32; 100] (transpose_data 100 32 (t_data r)) (t_dtype r) (t_device r).

Definition ts_ : NDArray := Script.tensor_to_numpy smp_ts.

(** The rows of an array that has some. *)
Definition rows_of (a : NDArray) : list NDArray :=
  match array_rows a with inr l => l | inl _ => [] end.

(** What the plotting loop iterates over: for each batch element, its
    index and its four trajectories. *)
Definition sample_rows : list (nat * (NDArray * NDArray * NDArray * NDArray)) :=
  enumerate (zip4 (rows_of (Script.tensor_to_numpy (paths smp_euler)))
                  (rows_of (Script.tensor_to_numpy (paths smp_heun)))
                  (rows_of (Script.tensor_to_numpy (paths smp_midpoint)))
                  (rows_of (Script.tensor_to_numpy (paths smp_exact)))).

Definition sample_lines (t : NDArray) (r : NDArray * NDArray * NDArray * NDArray) : list Line :=
  let '(e, h, m, a) := r in
  [mkLine (AArray t) (AArray e) "euler"; mkLine (AArray t) (AArray h) "heun";
   mkLine (AArray t) (AArray m) "midpoint"; mkLine (AArray t) (AArray a) "analytical"].

Definition sample_figure (t : NDArray) (r : NDArray * NDArray * NDArray * NDArray) : Figure :=
  mkFigure (sample_lines t r) "linear" "linear" true.

(** The name [savefig] is given for batch element [i]. *)
Definition sample_file (i : nat) : string := img_dir +:+ "/" +:+ pretty i.

(** The name the script builds for element [i] is that one, and lies in the
    output directory. *)
Definition name_ok (i : nat) : Prop :=
  os_path_join img_dir [pretty i] = sample_file i /\ dirname (sample_file i) = img_dir.

Definition plot_events (t : NDArray) (x : nat * (NDArray * NDArray * NDArray * NDArray))
    : list Event :=
  [EFigure] ++ map EPlot (sample_lines t x.2) ++ [ELegend; ESavefig (sample_file x.1); EClose].

(** The files after the figures of the elements [xs] were saved. *)
Definition files_after (t : NDArray) (xs : list (nat * (NDArray * NDArray * NDArray * NDArray)))
    (fs : gmap string Figure) : gmap string Figure :=
  foldl (fun fs x => <[savefig_target (sample_file x.1) := sample_figure t x.2]> fs) fs xs.

Definition sample_events : list Event :=
  setup_events w dev smp_ts 32 1 ++
  [euler_call (sde_ref w) (p_ref w) smp_pv smp_y0 smp_ts 100 (bm_ref w) smp_bm smp_dt;
   heun_call (strat_ref w) (p_ref w) smp_pv smp_y0 smp_ts 100 (bm_ref w) smp_bm smp_dt;
   midpoint_call (strat_ref w) (p_ref w) smp_pv smp_y0 smp_ts 100 (bm_ref w) smp_bm smp_dt;
   exact_call (sde_ref w) (p_ref w) smp_pv smp_y0 smp_ts 100 (bm_ref w) smp_bm;
   EToNumpy [smp_ts; paths smp_euler; paths smp_heun; paths smp_midpoint; paths smp_exact]
            (map Script.tensor_to_numpy
                 [smp_ts; paths smp_euler; paths smp_heun; paths smp_midpoint; paths smp_exact])] ++
  makedirs_events img_dir (dirs w) (files w) ++
  flat_map (plot_events ts_) sample_rows.

Definition sample_world : World :=
  world_after w dev smp_ts 100 32 1 sample_events (files_after ts_ sample_rows (files w)).

End Sample.

(** *** The whole script *)

Section Main.
Variables (w : World) (args : Args).

(** The device the startup block picks. *)
Definition chosen_device : device :=
  if cuda_available w && negb (no_gpu args) then cuda else cpu.

Definition startup_events : list Event :=
  [EBindDevice chosen_device; ESetDefaultDtype float64; EManualSeed 0].

(** The world the two procedures are entered in. *)
Definition startup_world : World :=
  mkWorld (cuda_available w) (Some chosen_device) float64 (grad_enabled w)
          (seed_state L 0) (entropy_src w) (next_id w) (heap w) (dirs w) (files w) (figs w)
          (trace w ++ startup_events).

Definition main_world : World :=
  estimator_world (sample_world startup_world chosen_device) chosen_device 4096 10.

End Main.

End WithLib.
End Expected.

(** ** Reading a trace *)

(** What a run added to the trace. *)
Definition new_events (before after : World) : list Event :=
  drop (length (trace before)) (trace after).

(** The numerical integrations: method and step size, in call order. *)
Definition integrations (tr : list Event) : list (string * float) :=
  omap (fun e => match e with
                 | ESdeint _ _ _ _ _ dt _ method _ _ => Some (method, dt)
                 | _ => None
                 end) tr.

(** The time grid of each integration. *)
Definition time_grids (tr : list Event) : list Tensor :=
  omap (fun e => match e with
                 | ESdeint _ _ _ _ ts _ _ _ _ _ => Some ts
                 | _ => None
                 end) tr.

(** The path objects constructed. *)
Definition paths_built (tr : list Event) : list nat :=
  omap (fun e => match e with ENewBrownian b _ _ _ _ => Some b | _ => None end) tr.

(** The path object handed to each solver call, numerical or analytical. *)
Definition paths_used (tr : list Event) : list nat :=
  omap (fun e => match e with
                 | ESdeint _ _ _ _ _ _ b _ _ _ => Some b
                 | EAnalytical _ _ _ _ _ b _ => Some b
                 | _ => None
                 end) tr.

(** The model each solver call is made on, with the parameter object the
    model refers to at the call and the value it has then. *)
Definition models_used (tr : list Event) : list (nat * nat * Tensor) :=
  omap (fun e => match e with
                 | ESdeint m p pv _ _ _ _ _ _ _ => Some (m, p, pv)
                 | EAnalytical m p pv _ _ _ _ => Some (m, p, pv)
                 | _ => None
                 end) tr.

(** The assignments to a model's attribute [p]: the model and the parameter
    object assigned. *)
Definition p_assignments (tr : list Event) : list (nat * nat) :=
  omap (fun e => match e with ESetP m p => Some (m, p) | _ => None end) tr.

(** The names handed to [savefig]. *)
Definition saved (tr : list Event) : list string :=
  omap (fun e => match e with ESavefig f => Some f | _ => None end) tr.

(** The global [device] was bound. *)
Definition device_bindings (tr : list Event) : list device :=
  omap (fun e => match e with EBindDevice dev => Some dev | _ => None end) tr.

(** The settings of torch's default dtype. *)
Definition dtype_settings (tr : list Event) : list dtype :=
  omap (fun e => match e with ESetDefaultDtype dt => Some dt | _ => None end) tr.

Definition directories_made (tr : list Event) : list string :=
  omap (fun e => match e with EMakedirs p => Some p | _ => None end) tr.

(** The inputs of each regression. *)
Definition regressions (tr : list Event) : list (NDArray * NDArray) :=
  omap (fun e => match e with ELinregress x y => Some (x, y) | _ => None end) tr.

(** The MSE computations: the two tensors compared and the result. *)
Definition mse_calls (tr : list Event) : list (Tensor * Tensor * Tensor) :=
  omap (fun e => match e with EComputeMse x y r => Some (x, y, r) | _ => None end) tr.

(** The conversions to numpy: the tensors given and the arrays returned. *)
Definition conversions (tr : list Event) : list (list Tensor * list NDArray) :=
  omap (fun e => match e with EToNumpy ts r => Some (ts, r) | _ => None end) tr.

Definition is_to_numpy (e : Event) : bool :=
  match e with EToNumpy _ _ => true | _ => false end.
Definition is_linregress (e : Event) : bool :=
  match e with ELinregress _ _ => true | _ => false end.

(** A tensor is on device [dev] in precision [dt]. *)
Definition tensor_on (dev : device) (dt : dtype) (t : Tensor) : Prop :=
  t_device t = dev /\ t_dtype t = dt.

(** Every tensor, model and path object a call creates, moves or is given
    is on [dev] in precision [dt]. *)
Definition event_on (dev : device) (dt : dtype) (e : Event) : Prop :=
  match e with
  | ENewTensor t => tensor_on dev dt t
  | EModuleTo _ dev' => dev' = dev
  | ENewBrownian _ _ dt' dev' _ => dev' = dev /\ dt' = dt
  | ESdeint _ _ pv y0 ts _ _ _ _ res =>
      tensor_on dev dt pv /\ tensor_on dev dt y0 /\ tensor_on dev dt ts /\ tensor_on dev dt res
  | EAnalytical _ _ pv y0 ts _ res =>
      tensor_on dev dt pv /\ tensor_on dev dt y0 /\ tensor_on dev dt ts /\ tensor_on dev dt res
  | EComputeMse x y res => tensor_on dev dt x /\ tensor_on dev dt y /\ tensor_on dev dt res
  | EToNumpy ts _ => Forall (tensor_on dev dt) ts
  | _ => True
  end.

(** The seeds handed to [torch.manual_seed]. *)
Definition seedings (tr : list Event) : list Z :=
  omap (fun e => match e with EManualSeed s => Some s | _ => None end) tr.

(** The lines handed to [plt.plot]. *)
Definition plotted_lines (tr : list Event) : list Line :=
  omap (fun e => match e with EPlot ln => Some ln | _ => None end) tr.

(** The shape of what [plt.plot] is handed, once numpy has made an array of
    it; nothing if numpy refuses. *)
Definition plot_shape (x : ArrayLike) : option (list nat) :=
  match np_array x with inr a => Some (a_shape a) | inl _ => None end.

(** The numerical integrations: the method, the model it is run on and the
    names it is handed. *)
Definition method_calls (tr : list Event) : list (string * nat * gmap string string) :=
  omap (fun e => match e with
                 | ESdeint m _ _ _ _ _ _ method names _ => Some (method, m, names)
                 | _ => None
                 end) tr.

(** What each solver call, numerical or analytical, is given to work on: the
    initial state, the time grid and the path object. *)
Definition solver_inputs (tr : list Event) : list (Tensor * Tensor * nat) :=
  omap (fun e => match e with
                 | ESdeint _ _ _ y0 ts _ b _ _ _ => Some (y0, ts, b)
                 | EAnalytical _ _ _ y0 ts b _ => Some (y0, ts, b)
                 | _ => None
                 end) tr.

(** What the solver calls returned, numerical or analytical, in call order. *)
Definition solver_results (tr : list Event) : list Tensor :=
  omap (fun e => match e with
                 | ESdeint _ _ _ _ _ _ _ _ _ res => Some res
                 | EAnalytical _ _ _ _ _ _ res => Some res
                 | _ => None
                 end) tr.

(** The models the closed form is asked of. *)
Definition analytical_calls (tr : list Event) : list nat :=
  omap (fun e => match e with EAnalytical m _ _ _ _ _ _ => Some m | _ => None end) tr.

(** How the script may use pyplot's implicit current figure: a figure is
    opened, drawn on, saved once and closed, before the next one is opened.
    Drawing or saving with no figure open would make pyplot open one on its
    own; a second [plt.figure()] would leave the first open. *)
Inductive FigState := NoFigure | Drawing | Saved.

Definition pyplot_step (st : FigState) (e : Event) : option FigState :=
  match e, st with
  | EFigure, NoFigure => Some Drawing
  | EFigure, _ => None
  | (EPlot _ | EXScale _ | EYScale _ | ELegend), Drawing => Some Drawing
  | (EPlot _ | EXScale _ | EYScale _ | ELegend), _ => None
  | ESavefig _, Drawing => Some Saved
  | ESavefig _, _ => None
  | EClose, Saved => Some NoFigure
  | EClose, _ => None
  | _, _ => Some st
  end.

Fixpoint pyplot_protocol (st : FigState) (tr : list Event) : option FigState :=
  match tr with
  | [] => Some st
  | e :: tr' =>
      match pyplot_step st e with
      | Some st' => pyplot_protocol st' tr'
      | None => None
      end
  end.

(** The MSE lists the rate plot shows, read from a saved figure: for each
    line its label and its ordinates. *)
Definition plotted (fg : Figure) : list ArrayLike := map ln_y (fig_lines fg).

(** ** A concrete library and world, to run the script on *)

Definition sum_floats (l : list float) : float := foldr PrimFloat.add 0%float l.

(** Solvers that are off by the step size, a closed form that is zero. *)
Definition demo_lib : Lib :=
  mkLib (fun seed => seed)
        (fun rng d => (replicate d 0.5%float, (rng + 1)%Z))
        (fun rng src => (src, rng, (src + 1)%Z))
        (fun a b n => map (fun i => (a + (b - a) * PrimFloat.of_uint63 (Uint63.of_Z (Z.of_nat i))
                                         / PrimFloat.of_uint63 (Uint63.of_Z (Z.of_nat (pred n))))%float)
                          (seq 0 n))
        (fun _ _ y0 ts dt _ _ _ => replicate (length (t_data ts) * length (t_data y0)) dt)
        (fun _ y0 ts _ => replicate (length (t_data ts) * length (t_data y0)) 0%float)
        (fun x y => (sum_floats (zip_with (fun a b => ((a - b) * (a - b))%float)
                                          (t_data x) (t_data y))
                     / PrimFloat.of_uint63 (Uint63.of_Z (Z.of_nat (length (t_data x)))))%float)
        (fun x => x)
        (fun x y => mkLinregress 1%float 0%float 1%float 0%float 0%float)
        (fun _ => "1.0000").

(** A fresh process: nothing bound, torch's defaults, an empty directory. *)
Definition fresh_world : World :=
  mkWorld true None float32 true 0 0 0 ∅ ∅ ∅ [] [].

(** A process that has been in use: other settings, other generator state,
    objects allocated, an output directory left by an earlier run. *)
Definition used_world : World :=
  mkWorld true None float64 false 12345 0 17 ∅ {[Expected.img_dir]} ∅ [new_figure] [EClose].

(** A process that has been in use, the device bound, the random sources
    as in a fresh one. *)
Definition busy_world : World :=
  mkWorld true (Some cuda) float32 false 0 0 17 ∅ {[Expected.img_dir]} ∅ [new_figure] [EClose].

(** The same once [device] is bound. *)
Definition ready_world : World := set_device (Some cuda) fresh_world.

(** * Running the script *)

Section Run.
Variable L : Lib.
Import Script.
Local Open Scope list_scope.

(** ** Stepping through a program *)

Lemma bind_inr {A B} (k : A -> M B) (m : M A) w a w' :
  m w = (inr a, w') -> (m ≫= k) w = k a w'.
Proof. intros H. unfold mbind, M_bind, bind. rewrite H. reflexivity. Qed.

Lemma bind_inl {A B} (k : A -> M B) (m : M A) w e w' :
  m w = (inl e, w') -> (m ≫= k) w = (inl e, w').
Proof. intros H. unfold mbind, M_bind, bind. rewrite H. reflexivity. Qed.

Lemma world_eta w :
  mkWorld (cuda_available w) (glob_device w) (default_dtype w) (grad_enabled w) (torch_rng w)
          (entropy_src w) (next_id w) (heap w) (dirs w) (files w) (figs w) (trace w) = w.
Proof. destruct w. reflexivity. Qed.

Lemma global_device_run w dev : glob_device w = Some dev -> global_device w = (inr dev, w).
Proof. intros H. unfold global_device. rewrite H. reflexivity. Qed.

Lemma global_device_unbound w :
  glob_device w = None -> global_device w = (inl (NameError "device"), w).
Proof. intros H. unfold global_device. rewrite H. reflexivity. Qed.

Lemma deref_run w r o : heap w !! r = Some o -> deref r w = (inr o, w).
Proof. intros H. unfold deref. rewrite H. reflexivity. Qed.

(** Worlds are kept as a constructor applied to their twelve fields. *)
Ltac norm :=
  cbn [cuda_available glob_device default_dtype grad_enabled torch_rng entropy_src next_id
       heap dirs files figs trace
       set_device set_default_dtype set_grad set_rng set_entropy set_heap set_dirs set_files
       set_figs set_trace t_shape t_data t_dtype t_device fst snd].

Ltac lookup_tac :=
  norm;
  repeat first [ rewrite lookup_insert_eq | rewrite lookup_insert_ne by lia ];
  first [ reflexivity | eassumption ].

Lemma module_to_run w m dev kind d p v :
  heap w !! m = Some (OEx2 kind d p) -> heap w !! p = Some (OParameter v) ->
  module_to m dev w =
  (inr m, set_trace (trace w ++ [EModuleTo m dev])
            (set_heap (next_id w)
               (<[p := OParameter (mkTensor (t_shape v) (t_data v) (t_dtype v) dev)]> (heap w)) w)).
Proof.
  intros Hm Hp. unfold module_to.
  erewrite bind_inr by (apply deref_run; eassumption). cbv beta iota.
  erewrite bind_inr by (apply deref_run; eassumption). cbv beta iota.
  reflexivity.
Qed.

Lemma get_p_run w m kind d p :
  heap w !! m = Some (OEx2 kind d p) -> get_p m w = (inr p, w).
Proof.
  intros Hm. unfold get_p.
  erewrite bind_inr by (apply deref_run; eassumption). reflexivity.
Qed.

Lemma set_p_run w m kind d p0 p :
  heap w !! m = Some (OEx2 kind d p0) ->
  set_p m p w = (inr tt, set_trace (trace w ++ [ESetP m p])
                           (set_heap (next_id w) (<[m := OEx2 kind d p]> (heap w)) w)).
Proof.
  intros Hm. unfold set_p.
  erewrite bind_inr by (apply deref_run; eassumption). reflexivity.
Qed.

Lemma read_model_run w m kind d p v :
  heap w !! m = Some (OEx2 kind d p) -> heap w !! p = Some (OParameter v) ->
  read_model m w = (inr (kind, p, v), w).
Proof.
  intros Hm Hp. unfold read_model.
  erewrite bind_inr by (apply deref_run; eassumption). cbv beta iota.
  erewrite bind_inr by (apply deref_run; eassumption). reflexivity.
Qed.

Lemma sdeint_run w m kind d p pv y0 ts n dt b bo method names :
  heap w !! m = Some (OEx2 kind d p) -> heap w !! p = Some (OParameter pv) ->
  heap w !! b = Some bo -> t_shape ts = [n] ->
  sdeint L m y0 ts dt b method names w =
  (inr (Expected.solution L pv y0 ts n bo kind method names dt),
   set_trace (trace w ++ [ESdeint m p pv y0 ts dt b method names
                            (Expected.solution L pv y0 ts n bo kind method names dt)]) w).
Proof.
  intros Hm Hp Hb Hts. unfold sdeint.
  erewrite bind_inr by (eapply read_model_run; eassumption). cbv beta iota.
  erewrite bind_inr by (apply deref_run; eassumption). cbv beta.
  rewrite Hts. reflexivity.
Qed.

Lemma analytical_sample_run w m kind d p pv y0 ts n b bo :
  heap w !! m = Some (OEx2 kind d p) -> heap w !! p = Some (OParameter pv) ->
  heap w !! b = Some bo -> t_shape ts = [n] ->
  analytical_sample L m y0 ts b w =
  (inr (Expected.exact_solution L pv y0 ts n bo),
   set_trace (trace w ++ [EAnalytical m p pv y0 ts b (Expected.exact_solution L pv y0 ts n bo)])
             w).
Proof.
  intros Hm Hp Hb Hts. unfold analytical_sample.
  erewrite bind_inr by (eapply read_model_run; eassumption). cbv beta iota.
  erewrite bind_inr by (apply deref_run; eassumption). cbv beta.
  rewrite Hts. reflexivity.
Qed.

Lemma no_grad_run {A} (body : M A) w r w' :
  body (set_grad false w) = (r, w') -> no_grad body w = (r, set_grad (grad_enabled w) w').
Proof. intros H. unfold no_grad. rewrite H. reflexivity. Qed.

(** ** The loop of the estimator *)

Section Loop.
Variables (sde strat d d' p : nat) (pv y0 ts : Tensor) (b : nat) (bo : Obj).

Local Abbreviation loop_heap := (Expected.solver_heap sde strat d d' p pv b bo).

Lemma loop_heap_set_trace w tr : loop_heap w -> loop_heap (set_trace tr w).
Proof. intros H. exact H. Qed.

Ltac run_solver lem H Hts :=
  erewrite bind_inr by
    (eapply lem; [ apply H | apply H | apply H | exact Hts ]);
  cbv beta; norm.

Lemma estimator_body_run w dt v :
  loop_heap w -> t_shape ts = [2] ->
  inspect_strong_order_body L sde strat y0 ts b dt v w =
  (inr (Expected.vars_after L pv y0 ts 2 bo v [dt]),
   set_trace (trace w ++ Expected.step_events L sde strat p pv y0 ts 2 b bo dt) w).
Proof.
  intros H Hts. unfold inspect_strong_order_body.
  destruct w as [ca gd dd ge rng src nid hp ds fs fg tr].
  run_solver sdeint_run H Hts.
  erewrite bind_inr by reflexivity. cbv beta iota. norm.
  run_solver sdeint_run H Hts.
  erewrite bind_inr by reflexivity. cbv beta iota. norm.
  run_solver sdeint_run H Hts.
  erewrite bind_inr by reflexivity. cbv beta iota. norm.
  run_solver analytical_sample_run H Hts.
  erewrite bind_inr by reflexivity. cbv beta iota. norm.
  do 5 (erewrite bind_inr by reflexivity; cbv beta iota; norm).
  unfold mret, M_ret, ret. f_equal.
  unfold Expected.step_events. rewrite <- !app_assoc. reflexivity.
Qed.

Lemma vars_after_nil v : Expected.vars_after L pv y0 ts 2 bo v [] = v.
Proof. destruct v; unfold Expected.vars_after; cbn. rewrite !app_nil_r. reflexivity. Qed.

Lemma vars_after_cons v dt l :
  Expected.vars_after L pv y0 ts 2 bo (Expected.vars_after L pv y0 ts 2 bo v [dt]) l =
  Expected.vars_after L pv y0 ts 2 bo v (dt :: l).
Proof. unfold Expected.vars_after; cbn. rewrite <- !app_assoc. reflexivity. Qed.

Lemma estimator_loop_run l : forall v w,
  loop_heap w -> t_shape ts = [2] ->
  for_each l (inspect_strong_order_body L sde strat y0 ts b) v w =
  (inr (Expected.vars_after L pv y0 ts 2 bo v l),
   set_trace (trace w ++ flat_map (Expected.step_events L sde strat p pv y0 ts 2 b bo) l) w).
Proof.
  induction l as [|dt l IH]; intros v w H Hts.
  - cbn [for_each flat_map]. rewrite vars_after_nil, app_nil_r.
    destruct w; reflexivity.
  - cbn [for_each flat_map].
    erewrite bind_inr by (apply estimator_body_run; assumption).
    rewrite IH by (try apply loop_heap_set_trace; assumption).
    rewrite vars_after_cons. destruct w. norm. rewrite <- app_assoc. reflexivity.
Qed.

End Loop.

(** ** numpy *)

Section Arrays.
Variables (pv y0 ts : Tensor) (n : nat) (bo : Obj).

Lemma np_array_mses (sol : float -> Tensor) l :
  (forall dt, t_dtype (sol dt) = t_dtype y0) -> l <> [] ->
  np_array (AArrays (map (Expected.mse_ L pv y0 ts n bo sol) l)) =
  inr (mkArray [length l]
         (map (fun dt => mse_value L (Expected.end_value y0 (sol dt))
                           (Expected.end_value y0 (Expected.exact_solution L pv y0 ts n bo))) l)
         (t_dtype y0)).
Proof.
  intros Hsol Hl. destruct l as [|dt l]; [congruence|]. clear Hl.
  cbn [map np_array].
  lazymatch goal with
  | |- context [forallb ?f ?xs] => assert (Hall : forallb f xs = true)
  end.
  { apply forallb_forall. intros a Ha. apply in_map_iff in Ha as [dt' [<- _]].
    apply bool_decide_eq_true. split; [reflexivity|].
    cbn. rewrite !Hsol. reflexivity. }
  rewrite Hall. cbn [a_shape a_dtype Expected.mse_ tensor_to_numpy Expected.mse t_shape t_dtype
                     Expected.end_value].
  rewrite Hsol, length_map. f_equal. f_equal.
  cbn [length concat a_data t_data app]. f_equal. clear Hall.
  induction l as [|x l IH]; [reflexivity|].
  cbn [map concat a_data tensor_to_numpy Expected.mse_ Expected.mse t_data app].
  f_equal. exact IH.
Qed.

End Arrays.

Lemma log_run x a w : np_array x = inr a -> log L x w = (inr (np_log_array L a), w).
Proof. intros H. unfold log. rewrite H. reflexivity. Qed.

(** ** The file system *)

Lemma makedirs_if_not_found_run p w :
  makedirs_if_not_found p w =
  (inr tt, set_trace (trace w ++ Expected.makedirs_events p (dirs w) (files w))
             (set_dirs (Expected.dirs_after p (dirs w) (files w)) w)).
Proof.
  unfold makedirs_if_not_found, Expected.makedirs_events, Expected.dirs_after,
    Expected.path_present.
  unfold mbind, M_bind, bind, path_exists.
  destruct (bool_decide (p ∈ dirs w ∨ p ∈ dom (files w))) eqn:E.
  - rewrite app_nil_r. destruct w; reflexivity.
  - unfold os_makedirs, mbind, M_bind, bind, path_exists. rewrite E. reflexivity.
Qed.

Lemma img_dir_made ds (fs : gmap string Figure) :
  Expected.img_dir ∈ ds \/ Expected.img_dir ∉ dom fs ->
  Expected.img_dir ∈ Expected.dirs_after Expected.img_dir ds fs.
Proof.
  intros H. unfold Expected.dirs_after, Expected.path_present.
  case_bool_decide as E.
  - destruct E as [E|E]; [exact E|]. destruct H as [H|H]; [exact H|]. contradiction.
  - set_solver.
Qed.

Lemma plt_savefig_run fname w fg rest :
  figs w = fg :: rest -> dirname fname ∈ dirs w ->
  plt_savefig fname w =
  (inr tt, set_trace (trace w ++ [ESavefig fname])
             (set_files (<[savefig_target fname := fg]> (files w)) w)).
Proof.
  intros Hf Hd. unfold plt_savefig. rewrite Hf. cbn [on_current].
  rewrite bool_decide_eq_true_2 by exact Hd.
  cbn [head default]. rewrite <- Hf. destruct w; reflexivity.
Qed.

(** ** The estimator *)

Ltac exec_op m :=
  lazymatch m with
  | global_device => erewrite bind_inr by (apply global_device_run; first [eassumption | reflexivity])
  | module_to _ _ => erewrite bind_inr by (eapply module_to_run; [lookup_tac | lookup_tac])
  | get_p _ => erewrite bind_inr by (eapply get_p_run; lookup_tac)
  | set_p _ _ => erewrite bind_inr by (eapply set_p_run; lookup_tac)
  | makedirs_if_not_found _ => erewrite bind_inr by (apply makedirs_if_not_found_run)
  | _ => erewrite bind_inr by reflexivity
  end.

Ltac exec1 :=
  lazymatch goal with
  | |- mbind _ ?m _ = _ => exec_op m
  end;
  cbv beta; norm.

Lemma img_dir_eq :
  os_path_join "." ["diagnostics"; "plots"; "stratonovich_diagonal"] = Expected.img_dir.
Proof. vm_compute. reflexivity. Qed.

Lemma rate_file_eq : os_path_join Expected.img_dir ["rate"] = Expected.rate_file.
Proof. vm_compute. reflexivity. Qed.

Lemma dirname_rate_file : dirname Expected.rate_file = Expected.img_dir.
Proof. vm_compute. reflexivity. Qed.

Ltac unfold_setters :=
  unfold set_device, set_default_dtype, set_grad, set_rng, set_entropy, set_heap, set_dirs,
    set_files, set_figs, set_trace.

Lemma dts_nonempty : dts <> [].
Proof. unfold dts. cbn [seq map]. discriminate. Qed.

Ltac exec_log_dts := erewrite bind_inr by (apply log_run; reflexivity); cbv beta; norm.
Ltac exec_log_mses :=
  erewrite bind_inr by
    (apply log_run; cbn [euler_mses_ heun_mses_ midpoint_mses_ Expected.vars_after app];
     apply np_array_mses; [ intros; reflexivity | apply dts_nonempty ]);
  cbv beta; norm.

Lemma inspect_strong_order_run w dev :
  glob_device w = Some dev ->
  Expected.fs_ready w ->
  inspect_strong_order L w = (inr tt, Expected.estimator_world L w dev 4096 10).
Proof.
  intros Hdev Hfs. unfold inspect_strong_order.
  remember 4096 as batch eqn:Hbatch. cbv zeta.
  destruct w as [ca gd dd ge rng src nid hp ds fs fg tr]. unfold Expected.fs_ready in Hfs. cbn in Hdev, Hfs. subst gd.
  do 12 exec1.
  erewrite bind_inr; cycle 1.
  { eapply no_grad_run. norm.
    do 4 exec1.
    eapply estimator_loop_run with (d := 10) (d' := 10).
    - split; [lookup_tac | split; [lookup_tac | split; [lookup_tac | lookup_tac]]].
    - reflexivity. }
  cbv beta. norm.
  exec1.
  (exec_log_dts; exec_log_mses; exec1; cbv zeta).
  (exec_log_dts; exec_log_mses; exec1; cbv zeta).
  (exec_log_dts; exec_log_mses; exec1; cbv zeta).
  do 7 exec1.
  rewrite img_dir_eq.
  rewrite rate_file_eq.
  exec1.
  erewrite bind_inr by
    (eapply plt_savefig_run;
     [ norm; reflexivity
     | norm; rewrite dirname_rate_file; apply img_dir_made; exact Hfs ]).
  cbv beta. norm.
  unfold plt_close. norm.
  (unfold Expected.estimator_world, Expected.world_after).
  norm.
  clear Hbatch.
  f_equal.
  f_equal.
  all: try reflexivity.
  rewrite <- !app_assoc. reflexivity.
Qed.

(** ** The plotting loop of the sample-path comparison *)

Lemma sample_body_run w t x :
  Expected.img_dir ∈ dirs w -> Expected.name_ok x.1 ->
  inspect_sample_body t Expected.img_dir x tt w =
  (inr tt,
   set_trace (trace w ++ Expected.plot_events t x)
     (set_files (<[savefig_target (Expected.sample_file x.1) := Expected.sample_figure t x.2]>
                   (files w)) w)).
Proof.
  intros Hd [Hname Hdir]. destruct x as [i [[[e h] m] a]]. cbn [fst snd] in *.
  unfold inspect_sample_body. rewrite Hname.
  destruct w as [ca gd dd ge rng src nid hp ds fs fg tr]. cbn [dirs] in Hd.
  do 6 (erewrite bind_inr by reflexivity; cbv beta; norm).
  erewrite bind_inr by
    (eapply plt_savefig_run; [ norm; reflexivity | norm; rewrite Hdir; exact Hd ]).
  cbv beta. norm. unfold plt_close. norm.
  unfold Expected.plot_events, Expected.sample_figure, Expected.sample_lines.
  cbn [fst snd map app on_current fig_lines fig_xscale fig_yscale fig_legend new_figure tail].
  rewrite <- !app_assoc. reflexivity.
Qed.

Lemma sample_loop_run t xs : forall w,
  Expected.img_dir ∈ dirs w -> Forall (fun x => Expected.name_ok x.1) xs ->
  for_each xs (inspect_sample_body t Expected.img_dir) tt w =
  (inr tt,
   set_trace (trace w ++ flat_map (Expected.plot_events t) xs)
     (set_files (Expected.files_after t xs (files w)) w)).
Proof.
  induction xs as [|x xs IH]; intros w Hd Hok.
  - cbn [for_each flat_map Expected.files_after foldl]. rewrite app_nil_r.
    destruct w; reflexivity.
  - apply Forall_cons in Hok as [Hx Hxs].
    cbn [for_each flat_map].
    erewrite bind_inr by (apply sample_body_run; assumption).
    rewrite IH; [ | destruct w; exact Hd | exact Hxs ].
    destruct w. norm. rewrite <- app_assoc. reflexivity.
Qed.

(** ** The sample-path comparison *)

Lemma names_ok i : i < 32 -> Expected.name_ok i.
Proof.
  intros Hi.
  do 32 (destruct i as [|i]; [ split; vm_compute; reflexivity | ]).
  lia.
Qed.

Lemma zip4_length {A} (a b c d : list A) : length (zip4 a b c d) <= length a.
Proof.
  revert b c d. induction a as [|x a IH]; intros [|y b] [|z c] [|u d]; cbn; try lia.
  specialize (IH b c d). lia.
Qed.

Lemma enumerate_names_ok {A} (l : list A) :
  length l <= 32 -> Forall (fun x => Expected.name_ok x.1) (enumerate l).
Proof.
  intros Hl. apply Forall_forall. intros [i y] Hin. cbn [fst].
  apply names_ok. unfold enumerate in Hin.
  apply elem_of_zip_l in Hin. cbn [fst] in Hin.
  apply elem_of_seq in Hin. lia.
Qed.

Lemma rows_length a n sh l :
  a_shape a = n :: sh -> array_rows a = inr l -> length l = n.
Proof.
  intros Hs. unfold array_rows. rewrite Hs. intros [= <-].
  rewrite length_map, length_seq. reflexivity.
Qed.

Ltac exec_solver lem :=
  erewrite bind_inr by
    (eapply lem; [ lookup_tac | lookup_tac | lookup_tac | reflexivity ]);
  cbv beta; norm.

Lemma inspect_sample_run w dev :
  glob_device w = Some dev -> Expected.fs_ready w ->
  inspect_sample L w = (inr tt, Expected.sample_world L w dev).
Proof.
  intros Hdev Hfs. unfold inspect_sample. cbv zeta.
  destruct w as [ca gd dd ge rng src nid hp ds fs fg tr].
  unfold Expected.fs_ready in Hfs. cbn in Hdev, Hfs. subst gd.
  do 12 exec1.
  erewrite bind_inr; cycle 1.
  { eapply no_grad_run. norm.
    do 4 exec1.
    do 3 exec_solver sdeint_run.
    exec_solver analytical_sample_run.
    do 5 exec1.
    reflexivity. }
  cbv beta iota. norm.
  rewrite img_dir_eq.
  exec1.
  do 4 exec1.
  rewrite sample_loop_run.
  2:{ norm. apply img_dir_made. exact Hfs. }
  2:{ apply enumerate_names_ok. etransitivity; [apply zip4_length|].
      rewrite length_map, length_seq. reflexivity. }
  norm.
  unfold Expected.sample_world, Expected.world_after. norm.
  f_equal.
  f_equal.
  all: try reflexivity.
  rewrite <- !app_assoc. reflexivity.
Qed.

(** ** The whole script *)

Lemma main_run w args :
  Expected.fs_ready w -> main L args w = (inr tt, Expected.main_world L w args).
Proof.
  intros Hfs. unfold main.
  destruct w as [ca gd dd ge rng src nid hp ds fs fg tr].
  do 4 exec1.
  rewrite <- !app_assoc. cbn [app].
  erewrite bind_inr by (eapply inspect_sample_run; [ reflexivity | exact Hfs ]).
  erewrite inspect_strong_order_run; [ reflexivity | reflexivity | ].
  left. unfold Expected.sample_world, Expected.world_after. cbn [dirs].
  apply img_dir_made. exact Hfs.
Qed.

(** ** Reading the trace of a run *)

Lemma new_events_app w w' (evs : list Event) :
  trace w' = (trace w ++ evs)%list -> new_events w w' = evs.
Proof. intros H. unfold new_events. rewrite H. apply drop_app_length. Qed.

Lemma estimator_trace w dev :
  new_events w (Expected.estimator_world L w dev 4096 10) =
  Expected.estimator_events L w dev 4096 10.
Proof. apply new_events_app. reflexivity. Qed.

Lemma sample_trace w dev :
  new_events w (Expected.sample_world L w dev) = Expected.sample_events L w dev.
Proof. apply new_events_app. reflexivity. Qed.

Lemma main_trace w args :
  new_events w (Expected.main_world L w args) =
  Expected.startup_events w args ++
  Expected.sample_events L (Expected.startup_world L w args) (Expected.chosen_device w args) ++
  Expected.estimator_events L
    (Expected.sample_world L (Expected.startup_world L w args) (Expected.chosen_device w args))
    (Expected.chosen_device w args) 4096 10.
Proof.
  apply new_events_app. unfold Expected.main_world, Expected.estimator_world.
  unfold Expected.world_after at 1. cbn [trace].
  unfold Expected.sample_world at 1. unfold Expected.world_after at 1. cbn [trace].
  unfold Expected.startup_world at 1. cbn [trace].
  rewrite <- !app_assoc. reflexivity.
Qed.

Lemma omap_flat_map {A B C} (f : B -> option C) (g : A -> list B) (l : list A) :
  omap f (flat_map g l) = flat_map (fun x => omap f (g x)) l.
Proof.
  induction l as [|x l IH]; [reflexivity|].
  cbn [flat_map]. rewrite omap_app, IH. reflexivity.
Qed.

Lemma Forall_flat_map {A B} (P : B -> Prop) (g : A -> list B) (l : list A) :
  (forall x, Forall P (g x)) -> Forall P (flat_map g l).
Proof.
  intros H. induction l as [|x l IH]; [constructor|].
  cbn [flat_map]. apply Forall_app. split; [apply H | exact IH].
Qed.

(** ** C10 *)

(** C10: the procedures read the global [device], which only the startup
    block binds.  Called in a world where it is unbound (the module was
    imported), each procedure fails at once with NameError for [device],
    nothing done; run as a script, the startup block binds the device, sets
    the default dtype to float64 and seeds the generator with 0, and only
    then enters [inspect_sample] and [inspect_strong_order]. *)
Theorem procedures_need_startup (w : World) (args : Args) :
  glob_device w = None ->
  inspect_sample L w = (inl (NameError "device"), w) /\
  inspect_strong_order L w = (inl (NameError "device"), w) /\
  main L args w =
    (inspect_sample L;; inspect_strong_order L) (Expected.startup_world L w args) /\
  new_events w (Expected.startup_world L w args) =
    [EBindDevice (Expected.chosen_device w args); ESetDefaultDtype float64; EManualSeed 0] /\
  glob_device (Expected.startup_world L w args) = Some (Expected.chosen_device w args) /\
  default_dtype (Expected.startup_world L w args) = float64 /\
  torch_rng (Expected.startup_world L w args) = seed_state L 0.
Proof.
  intros Hunbound. split; [ | split; [ | split; [ | split ] ] ].
  - unfold inspect_sample. cbv zeta.
    erewrite bind_inl by (apply global_device_unbound; exact Hunbound). reflexivity.
  - unfold inspect_strong_order. cbv zeta.
    erewrite bind_inl by (apply global_device_unbound; exact Hunbound). reflexivity.
  - unfold main. destruct w as [ca gd dd ge rng src nid hp ds fs fg tr].
    do 4 exec1. rewrite <- !app_assoc. reflexivity.
  - apply new_events_app. reflexivity.
  - repeat split.
Qed.

(** ** C6 *)

Lemma path_present_after p w :
  Expected.path_present p (Expected.dirs_after p (dirs w) (files w)) (files w) = true.
Proof.
  unfold Expected.dirs_after. destruct (Expected.path_present p (dirs w) (files w)) eqn:E.
  - exact E.
  - unfold Expected.path_present. apply bool_decide_eq_true. left.
    apply elem_of_union_l, elem_of_union_l, elem_of_singleton. reflexivity.
Qed.

(** C6: creating the output directory is idempotent.  Whatever the file
    system holds, [makedirs_if_not_found] returns normally; a path that was
    absent is a directory afterwards, made by one [os.makedirs]; a directory
    already there leaves the world as it was; and a second call, in the
    world the first left, returns normally and changes nothing, whereas a
    bare [os.makedirs] would raise FileExistsError there. *)
Theorem makedirs_idempotent (p : string) (w : World) :
  let w' := (makedirs_if_not_found p w).2 in
  makedirs_if_not_found p w = (inr tt, w') /\
  (p ∉ dirs w -> p ∉ dom (files w) ->
     p ∈ dirs w' /\ directories_made (new_events w w') = [p]) /\
  (p ∈ dirs w -> w' = w) /\
  makedirs_if_not_found p w' = (inr tt, w') /\
  os_makedirs p w' = (inl (FileExistsError p), w').
Proof.
  cbv zeta. rewrite makedirs_if_not_found_run. cbn [snd].
  split; [reflexivity|]. split; [ | split; [ | split ] ].
  - intros Hd Hf.
    assert (E : Expected.path_present p (dirs w) (files w) = false).
    { apply bool_decide_eq_false. intros [H|H]; contradiction. }
    destruct w as [ca gd dd ge rng src nid hp ds fs fg tr]. cbn [dirs files trace] in *.
    unfold Expected.dirs_after, Expected.makedirs_events. rewrite E. norm. split.
    + apply elem_of_union_l, elem_of_union_l, elem_of_singleton. reflexivity.
    + erewrite new_events_app by reflexivity. reflexivity.
  - intros Hd.
    assert (E : Expected.path_present p (dirs w) (files w) = true).
    { apply bool_decide_eq_true. left. exact Hd. }
    unfold Expected.dirs_after, Expected.makedirs_events. rewrite E, app_nil_r.
    destruct w; reflexivity.
  - rewrite makedirs_if_not_found_run.
    pose proof (path_present_after p w) as E.
    destruct w as [ca gd dd ge rng src nid hp ds fs fg tr]. cbn [dirs files] in E. norm.
    remember (Expected.dirs_after p ds fs) as D eqn:HD.
    unfold Expected.makedirs_events at 2. unfold Expected.dirs_after.
    rewrite E, app_nil_r. reflexivity.
  - pose proof (path_present_after p w) as E.
    destruct w as [ca gd dd ge rng src nid hp ds fs fg tr]. cbn [dirs files] in E. norm.
    unfold os_makedirs. erewrite bind_inr by reflexivity. cbv beta.
    unfold Expected.path_present in E. norm. rewrite E. reflexivity.
Qed.

(** ** C1 *)

Lemma omap_makedirs_events {B} (f : Event -> option B) p ds fs :
  (forall q, f (EMakedirs q) = None) -> omap f (Expected.makedirs_events p ds fs) = [].
Proof.
  intros H. unfold Expected.makedirs_events.
  destruct (Expected.path_present p ds fs); [reflexivity|]. cbn. rewrite H. reflexivity.
Qed.

(** Reading the events of the estimator with [f]: the setup, each pass of
    the loop, the regressions and the plot are read apart. *)
Lemma omap_estimator_events {B} (f : Event -> option B) w dev :
  (forall q, f (EMakedirs q) = None) ->
  omap f (Expected.estimator_events L w dev 4096 10) =
  omap f (Expected.setup_events w dev (Expected.est_ts w dev) 4096 10) ++
  flat_map (fun dt => omap f (Expected.est_step_events L w dev 4096 10 dt)) dts ++
  omap f (Expected.regression_events L (Expected.est_pv L w dev 10) (Expected.est_y0 w dev 4096 10)
            (Expected.est_ts w dev) 2 (Expected.est_bm L w dev 4096 10)) ++
  omap f (Expected.rate_plot_events L (Expected.est_pv L w dev 10) (Expected.est_y0 w dev 4096 10)
            (Expected.est_ts w dev) 2 (Expected.est_bm L w dev 4096 10)) ++
  omap f [ESavefig Expected.rate_file; EClose].
Proof.
  intros H. unfold Expected.estimator_events.
  rewrite !omap_app, omap_flat_map, (omap_makedirs_events f) by exact H. reflexivity.
Qed.

Lemma flat_map_nil {A B} (l : list A) : flat_map (fun _ => @nil B) l = [].
Proof. induction l as [|x l IH]; [reflexivity | exact IH]. Qed.

Ltac read_estimator :=
  rewrite estimator_trace, !omap_estimator_events by reflexivity;
  cbn [omap list_omap Expected.setup_events Expected.est_step_events Expected.step_events
       Expected.regression_events Expected.rate_plot_events
       Expected.euler_call Expected.heun_call Expected.midpoint_call Expected.exact_call
       option_bind app].

Ltac each_method m H :=
  repeat (apply elem_of_cons in H as [->|H]); [ .. | apply elem_of_nil in H; contradiction ];
  cbn [fst snd].

(** C1: the strong-order estimator.  Entered with the device bound, it
    returns normally and, for every step size of [dts] in order, has
    integrated euler, heun and midpoint over the two-point time span
    [0, 5], all on the one path object it built; of each result it took the
    value at the final time only and computed one scalar mean squared error
    against the final value of the analytical solution; after the loop it
    fitted, for each method, a least-squares line through
    (log dt, log MSE / 2), and the slope is what the legend of the saved
    plot reports: the label of each line is the method's name followed by
    the slope to four decimals.  The value at the final time is the second
    of the two blocks of batch x dimension entries of a result. *)
Theorem strong_order_estimator (w : World) (dev : device) :
  glob_device w = Some dev -> Expected.fs_ready w ->
  let w' := Expected.estimator_world L w dev 4096 10 in
  let evs := new_events w w' in
  let ts := Expected.est_ts w dev in
  let exact := Expected.est_exact L w dev 4096 10 in
  let final := Expected.end_value (Expected.est_y0 w dev 4096 10) in
  let mse := Expected.mse L (Expected.est_pv L w dev 10) (Expected.est_y0 w dev 4096 10) ts 2
                          (Expected.est_bm L w dev 4096 10) in
  let half_log_mses :=
    Expected.half_log_mses L (Expected.est_pv L w dev 10) (Expected.est_y0 w dev 4096 10) ts 2
                           (Expected.est_bm L w dev 4096 10) in
  let methods := [("euler", Expected.est_euler L w dev 4096 10);
                  ("heun", Expected.est_heun L w dev 4096 10);
                  ("midpoint", Expected.est_midpoint L w dev 4096 10)] in
  inspect_strong_order L w = (inr tt, w') /\
  (* three integrations per step size *)
  integrations evs = flat_map (fun dt => [("euler", dt); ("heun", dt); ("midpoint", dt)]) dts /\
  (* over the two-point time span *)
  t_shape ts = [2] /\ t_data ts = [0%float; 5%float] /\ Forall (eq ts) (time_grids evs) /\
  (* sharing one path realization *)
  paths_built evs = [Expected.bm_ref w] /\ Forall (eq (Expected.bm_ref w)) (paths_used evs) /\
  (* what the calls returned: three integrations and the closed form per step size *)
  solver_results evs = flat_map (fun dt => map (fun m => m.2 dt) methods ++ [exact]) dts /\
  (* only the final-time value of each integration *)
  (forall m dt, m ∈ methods -> tensor_index (m.2 dt) (-1) = inr (final (m.2 dt))) /\
  tensor_index exact (-1) = inr (final exact) /\
  (forall r, t_shape (final r) = [4096; 10] /\
             t_data (final r) = take (4096 * 10) (drop (4096 * 10) (t_data r)) /\
             t_dtype (final r) = t_dtype r /\ t_device (final r) = t_device r) /\
  (* one scalar MSE per step size per method, against the analytical endpoint *)
  mse_calls evs =
    flat_map (fun dt => map (fun m => (final (m.2 dt), final exact, mse (m.2 dt))) methods) dts /\
  (forall m dt, m ∈ methods ->
     t_shape (mse (m.2 dt)) = [] /\
     t_data (mse (m.2 dt)) = [mse_value L (final (m.2 dt)) (final exact)]) /\
  (* after the loop, one regression per method on (log dt, log MSE / 2) *)
  (exists during after, evs = during ++ after /\ regressions during = [] /\
     integrations after = [] /\
     regressions after = map (fun m => (Expected.log_dts L, half_log_mses m.2)) methods) /\
  Expected.log_dts L = mkArray [8] (map (np_log L) dts) float64 /\
  (forall m, m ∈ methods ->
     half_log_mses m.2 =
     mkArray [8]
       (map (fun dt => (np_log L (mse_value L (final (m.2 dt)) (final exact)) / 2)%float) dts)
       (default_dtype w)) /\
  (* the slope is the order reported *)
  exists fig, files w' !! savefig_target Expected.rate_file = Some fig /\
    map ln_label (fig_lines fig) =
      map (fun m => m.1 +:+ "(k=" +:+
                    format_4f L (slope (linregress L (Expected.log_dts L) (half_log_mses m.2))) +:+
                    ")") methods /\
    map ln_x (fig_lines fig) = map (fun _ => AFloats dts) methods /\
    map ln_y (fig_lines fig) =
      map (fun m => AArrays (map (fun dt => tensor_to_numpy (mse (m.2 dt))) dts)) methods.
Proof.
  intros Hdev Hfs. cbv zeta.
  split; [ apply inspect_strong_order_run; assumption | ].
  split; [ unfold integrations; read_estimator; apply app_nil_r | ].
  split; [ reflexivity | ]. split; [ reflexivity | ].
  split.
  { unfold time_grids. read_estimator. rewrite app_nil_r.
    apply Forall_flat_map. intros dt. repeat constructor. }
  split; [ unfold paths_built; read_estimator; rewrite flat_map_nil; reflexivity | ].
  split.
  { unfold paths_used. read_estimator. rewrite app_nil_r.
    apply Forall_flat_map. intros dt. repeat constructor. }
  split; [ unfold solver_results; read_estimator; apply app_nil_r | ].
  split; [ intros m dt Hm; each_method m Hm; reflexivity | ].
  split; [ reflexivity | ].
  split.
  { intros r. unfold Expected.end_value, chunk, Expected.est_y0, Expected.y0, product.
    cbn [t_shape t_data t_dtype t_device foldr].
    rewrite Nat.mul_1_l, Nat.mul_1_r. repeat split. }
  split; [ unfold mse_calls; read_estimator; apply app_nil_r | ].
  split; [ intros m dt Hm; each_method m Hm; split; reflexivity | ].
  split.
  { eexists _, _. split; [ rewrite estimator_trace; unfold Expected.estimator_events;
                           rewrite (app_assoc (Expected.setup_events _ _ _ _ _)); reflexivity | ].
    split; [ unfold regressions; rewrite omap_app, omap_flat_map;
             cbn [omap list_omap Expected.setup_events Expected.est_step_events
                  Expected.step_events Expected.euler_call Expected.heun_call
                  Expected.midpoint_call Expected.exact_call option_bind app];
             apply flat_map_nil | ].
    split.
    - unfold integrations. rewrite !omap_app, omap_makedirs_events by reflexivity. reflexivity.
    - unfold regressions. rewrite !omap_app, omap_makedirs_events by reflexivity. reflexivity. }
  split; [ reflexivity | ].
  split.
  { intros m Hm; each_method m Hm; unfold Expected.half_log_mses, Expected.mses_array;
      unfold array_halve, np_log_array; cbn [a_data a_shape a_dtype];
      rewrite !map_map; reflexivity. }
  eexists. split.
  { unfold Expected.estimator_world, Expected.world_after. cbn [files].
    apply lookup_insert_eq. }
  split; [ reflexivity | ]. split; reflexivity.
Qed.

(** ** C3 and C4 *)

Lemma omap_plot_events {B} (f : Event -> option B) t x :
  f EFigure = None -> (forall ln, f (EPlot ln) = None) -> f ELegend = None ->
  (forall s, f (ESavefig s) = None) -> f EClose = None ->
  omap f (Expected.plot_events t x) = [].
Proof.
  intros H1 H2 H3 H4 H5. destruct x as [i [[[e h] m] a]].
  unfold Expected.plot_events, Expected.sample_lines.
  cbn [omap list_omap fst snd app map]. rewrite H1, !H2, H3, H4, H5. reflexivity.
Qed.

(** Reading the events of the sample-path comparison with an [f] that sees
    no plotting and no directory creation. *)
Lemma omap_sample_events {B} (f : Event -> option B) w dev :
  (forall q, f (EMakedirs q) = None) ->
  f EFigure = None -> (forall ln, f (EPlot ln) = None) -> f ELegend = None ->
  (forall s, f (ESavefig s) = None) -> f EClose = None ->
  omap f (Expected.sample_events L w dev) =
  omap f (Expected.setup_events w dev (Expected.smp_ts L w dev) 32 1) ++
  omap f
    [Expected.euler_call L (Expected.sde_ref w) (Expected.p_ref w) (Expected.smp_pv L w dev)
       (Expected.smp_y0 w dev) (Expected.smp_ts L w dev) 100 (Expected.bm_ref w)
       (Expected.smp_bm L w dev) Expected.smp_dt;
     Expected.heun_call L (Expected.strat_ref w) (Expected.p_ref w) (Expected.smp_pv L w dev)
       (Expected.smp_y0 w dev) (Expected.smp_ts L w dev) 100 (Expected.bm_ref w)
       (Expected.smp_bm L w dev) Expected.smp_dt;
     Expected.midpoint_call L (Expected.strat_ref w) (Expected.p_ref w)
       (Expected.smp_pv L w dev) (Expected.smp_y0 w dev) (Expected.smp_ts L w dev) 100
       (Expected.bm_ref w) (Expected.smp_bm L w dev) Expected.smp_dt;
     Expected.exact_call L (Expected.sde_ref w) (Expected.p_ref w) (Expected.smp_pv L w dev)
       (Expected.smp_y0 w dev) (Expected.smp_ts L w dev) 100 (Expected.bm_ref w)
       (Expected.smp_bm L w dev);
     EToNumpy [Expected.smp_ts L w dev; Expected.paths (Expected.smp_euler L w dev);
               Expected.paths (Expected.smp_heun L w dev);
               Expected.paths (Expected.smp_midpoint L w dev);
               Expected.paths (Expected.smp_exact L w dev)]
              (map tensor_to_numpy
                 [Expected.smp_ts L w dev; Expected.paths (Expected.smp_euler L w dev);
                  Expected.paths (Expected.smp_heun L w dev);
                  Expected.paths (Expected.smp_midpoint L w dev);
                  Expected.paths (Expected.smp_exact L w dev)])].
Proof.
  intros H0 H1 H2 H3 H4 H5. unfold Expected.sample_events.
  rewrite !omap_app, omap_flat_map, (omap_makedirs_events f) by exact H0.
  rewrite (flat_map_ext _ (fun _ => [])), flat_map_nil, !app_nil_r; [ reflexivity | ].
  intros x. apply omap_plot_events; assumption.
Qed.

Ltac read_sample :=
  rewrite sample_trace, omap_sample_events by reflexivity;
  cbn [omap list_omap Expected.setup_events
       Expected.euler_call Expected.heun_call Expected.midpoint_call Expected.exact_call
       option_bind app].

Ltac heap_lookup :=
  unfold Expected.estimator_world, Expected.sample_world, Expected.world_after,
    Expected.heap_after, Expected.bm_ref, Expected.strat_ref, Expected.p'_ref,
    Expected.sde_ref, Expected.p_ref;
  cbn [heap];
  repeat first [ rewrite lookup_insert_eq | rewrite lookup_insert_ne by lia ];
  reflexivity.

(** C3: each procedure builds exactly one Brownian path object and hands
    that object to every solver call and to the analytical solution: four
    calls in [inspect_sample], and four per step size, over all eight step
    sizes, in [inspect_strong_order].  The object is still in the heap when
    the procedure returns, with the one entropy it drew. *)
Theorem one_path_per_procedure (w : World) (dev : device) :
  glob_device w = Some dev -> Expected.fs_ready w ->
  let ws := Expected.sample_world L w dev in
  let we := Expected.estimator_world L w dev 4096 10 in
  let b := Expected.bm_ref w in
  (inspect_sample L w = (inr tt, ws) /\
   paths_built (new_events w ws) = [b] /\
   paths_used (new_events w ws) = [b; b; b; b] /\
   heap ws !! b = Some (Expected.smp_bm L w dev)) /\
  (inspect_strong_order L w = (inr tt, we) /\
   paths_built (new_events w we) = [b] /\
   paths_used (new_events w we) = flat_map (fun _ => [b; b; b; b]) dts /\
   length dts = 8 /\
   length (paths_used (new_events w we)) = 32 /\
   heap we !! b = Some (Expected.est_bm L w dev 4096 10)).
Proof.
  intros Hdev Hfs. cbv zeta. split.
  - split; [ apply inspect_sample_run; assumption | ].
    split; [ unfold paths_built; read_sample; reflexivity | ].
    split; [ unfold paths_used; read_sample; reflexivity | ].
    heap_lookup.
  - split; [ apply inspect_strong_order_run; assumption | ].
    split; [ unfold paths_built; read_estimator; rewrite flat_map_nil; reflexivity | ].
    assert (Hused : paths_used (new_events w (Expected.estimator_world L w dev 4096 10)) =
                    flat_map (fun _ => replicate 4 (Expected.bm_ref w)) dts).
    { unfold paths_used. read_estimator. apply app_nil_r. }
    split; [ exact Hused | ]. split; [ reflexivity | ].
    split; [ rewrite Hused; reflexivity | ].
    heap_lookup.
Qed.

(** C4: in both procedures the setup assigns the parameter object of the
    explicit-calculus model to the corrected-calculus model, once and before
    any solver call.  From then on the two models, which are distinct
    objects, refer to the one parameter object, and every solver call,
    whichever model it is made on, reads that object and finds the same
    value. *)
Theorem models_share_parameter (w : World) (dev : device) :
  glob_device w = Some dev -> Expected.fs_ready w ->
  let sde := Expected.sde_ref w in
  let strat := Expected.strat_ref w in
  let p := Expected.p_ref w in
  let shared (d : nat) (pv : Tensor) (w' : World) :=
    sde <> strat /\
    (exists setup calls,
       new_events w w' = setup ++ calls /\
       p_assignments setup = [(strat, p)] /\ models_used setup = [] /\
       p_assignments calls = [] /\
       Forall (fun c => (c.1.1 = sde \/ c.1.1 = strat) /\ c.1.2 = p /\ c.2 = pv)
              (models_used calls) /\
       (exists c, c ∈ models_used calls /\ c.1.1 = sde) /\
       (exists c, c ∈ models_used calls /\ c.1.1 = strat)) /\
    heap w' !! sde = Some (OEx2 ito d p) /\
    heap w' !! strat = Some (OEx2 stratonovich d p) /\
    heap w' !! p = Some (OParameter pv) in
  (inspect_sample L w = (inr tt, Expected.sample_world L w dev) /\
   shared 1 (Expected.smp_pv L w dev) (Expected.sample_world L w dev)) /\
  (inspect_strong_order L w = (inr tt, Expected.estimator_world L w dev 4096 10) /\
   shared 10 (Expected.est_pv L w dev 10) (Expected.estimator_world L w dev 4096 10)).
Proof.
  intros Hdev Hfs. cbv zeta. split.
  - split; [ apply inspect_sample_run; assumption | ].
    split; [ unfold Expected.sde_ref, Expected.strat_ref; lia | ].
    split; [ | split; [ heap_lookup | split; heap_lookup ] ].
    eexists _, _. split; [ rewrite sample_trace; unfold Expected.sample_events; reflexivity | ].
    split; [ reflexivity | ]. split; [ reflexivity | ].
    split.
    { unfold p_assignments. rewrite !omap_app, omap_makedirs_events, omap_flat_map by reflexivity.
      cbn [omap list_omap Expected.euler_call Expected.heun_call Expected.midpoint_call
           Expected.exact_call option_bind app].
      rewrite (flat_map_ext _ (fun _ => [])); [ apply flat_map_nil | ].
      intros x. apply omap_plot_events; reflexivity. }
    assert (Hused : forall rest,
      models_used (rest ++ Expected.makedirs_events Expected.img_dir (dirs w) (files w) ++
                   flat_map (Expected.plot_events (Expected.ts_ L w dev))
                            (Expected.sample_rows L w dev)) = models_used rest).
    { intros rest. unfold models_used.
      rewrite !omap_app, omap_makedirs_events, omap_flat_map by reflexivity.
      rewrite (flat_map_ext _ (fun _ => [])), flat_map_nil, !app_nil_r; [ reflexivity | ].
      intros x. apply omap_plot_events; reflexivity. }
    rewrite Hused. cbn.
    split; [ repeat (apply Forall_cons_2; [ cbn; auto | ]); apply Forall_nil_2 | ].
    split.
    + exists (Expected.sde_ref w, Expected.p_ref w, Expected.smp_pv L w dev).
      split; [ apply list_elem_of_here | reflexivity ].
    + exists (Expected.strat_ref w, Expected.p_ref w, Expected.smp_pv L w dev).
      split; [ apply list_elem_of_further, list_elem_of_here | reflexivity ].
  - split; [ apply inspect_strong_order_run; assumption | ].
    split; [ unfold Expected.sde_ref, Expected.strat_ref; lia | ].
    split; [ | split; [ heap_lookup | split; heap_lookup ] ].
    eexists _, _. split; [ rewrite estimator_trace; unfold Expected.estimator_events; reflexivity | ].
    split; [ reflexivity | ]. split; [ reflexivity | ].
    assert (Hused : models_used
        (flat_map (Expected.est_step_events L w dev 4096 10) dts ++
         Expected.regression_events L (Expected.est_pv L w dev 10) (Expected.est_y0 w dev 4096 10)
           (Expected.est_ts w dev) 2 (Expected.est_bm L w dev 4096 10) ++
         Expected.rate_plot_events L (Expected.est_pv L w dev 10) (Expected.est_y0 w dev 4096 10)
           (Expected.est_ts w dev) 2 (Expected.est_bm L w dev 4096 10) ++
         Expected.makedirs_events Expected.img_dir (dirs w) (files w) ++
         [ESavefig Expected.rate_file; EClose]) =
      flat_map (fun _ => [(Expected.sde_ref w, Expected.p_ref w, Expected.est_pv L w dev 10);
                          (Expected.strat_ref w, Expected.p_ref w, Expected.est_pv L w dev 10);
                          (Expected.strat_ref w, Expected.p_ref w, Expected.est_pv L w dev 10);
                          (Expected.sde_ref w, Expected.p_ref w, Expected.est_pv L w dev 10)])
               dts).
    { unfold models_used.
      rewrite !omap_app, omap_makedirs_events, omap_flat_map by reflexivity.
      cbn [omap list_omap Expected.est_step_events Expected.step_events
           Expected.regression_events Expected.rate_plot_events
           Expected.euler_call Expected.heun_call Expected.midpoint_call Expected.exact_call
           option_bind app].
      apply app_nil_r. }
    split.
    { unfold p_assignments.
      rewrite !omap_app, omap_makedirs_events, omap_flat_map by reflexivity.
      cbn [omap list_omap Expected.est_step_events Expected.step_events
           Expected.regression_events Expected.rate_plot_events
           Expected.euler_call Expected.heun_call Expected.midpoint_call Expected.exact_call
           option_bind app].
      rewrite flat_map_nil. reflexivity. }
    rewrite Hused.
    split; [ apply Forall_flat_map; intros dt;
             repeat (apply Forall_cons_2; [ cbn; auto | ]); apply Forall_nil_2 | ].
    split.
    + exists (Expected.sde_ref w, Expected.p_ref w, Expected.est_pv L w dev 10).
      split; [ apply list_elem_of_here | reflexivity ].
    + exists (Expected.strat_ref w, Expected.p_ref w, Expected.est_pv L w dev 10).
      split; [ apply list_elem_of_further, list_elem_of_here | reflexivity ].
Qed.

(** ** C9 *)

Lemma flat_map_singleton {A B} (f : A -> B) (l : list A) :
  flat_map (fun x => [f x]) l = map f l.
Proof. induction l as [|x l IH]; [reflexivity|]. cbn. rewrite IH. reflexivity. Qed.

Lemma omap_map {A B C} (f : B -> option C) (g : A -> B) (l : list A) :
  omap f (map g l) = omap (fun x => f (g x)) l.
Proof. induction l as [|x l IH]; [reflexivity|]. cbn. rewrite IH. reflexivity. Qed.

Lemma omap_Some {A B} (f : A -> B) (l : list A) : omap (fun x => Some (f x)) l = map f l.
Proof. induction l as [|x l IH]; [reflexivity|]. cbn. rewrite IH. reflexivity. Qed.

(** C9: in the estimator every MSE is computed on tensors of the device
    and precision the run works in, and is itself such a tensor, a scalar;
    the tensors handed to [to_numpy] are exactly these MSE tensors, three at
    a time, and come back as arrays of the same shape, values and
    precision; every conversion is made before the first regression; and
    the ordinates of the regression of each method are made (logarithm,
    halved) from the array that stacks the converted MSEs of that method,
    so that both inputs of each regression are arrays as long as the list
    of step sizes. *)
Theorem mses_converted_before_regression (w : World) (dev : device) :
  glob_device w = Some dev -> Expected.fs_ready w ->
  let w' := Expected.estimator_world L w dev 4096 10 in
  let evs := new_events w w' in
  let here := tensor_on dev (default_dtype w) in
  inspect_strong_order L w = (inr tt, w') /\
  Forall (fun c => here c.1.1 /\ here c.1.2 /\ here c.2 /\ t_shape c.2 = []) (mse_calls evs) /\
  concat (map fst (conversions evs)) = map snd (mse_calls evs) /\
  Forall (fun c => length c.1 = 3 /\ c.2 = map tensor_to_numpy c.1 /\
                   Forall (fun t => a_shape (tensor_to_numpy t) = t_shape t /\
                                    a_data (tensor_to_numpy t) = t_data t /\
                                    a_dtype (tensor_to_numpy t) = t_dtype t) c.1)
         (conversions evs) /\
  exists during after,
    evs = during ++ after /\ regressions during = [] /\ conversions after = [] /\
    length (regressions after) = 3 /\
    Forall (fun r => a_shape r.1 = [length dts] /\ length (a_data r.1) = length dts /\
                     a_shape r.2 = [length dts] /\ length (a_data r.2) = length dts)
           (regressions after) /\
    forall k, k < 3 ->
      exists stacked r,
        np_array (AArrays (omap (fun c => c.2 !! k) (conversions during))) = inr stacked /\
        regressions after !! k = Some r /\
        r.2 = array_halve (np_log_array L stacked).
Proof.
  intros Hdev Hfs. cbv zeta.
  split; [ apply inspect_strong_order_run; assumption | ].
  split.
  { unfold mse_calls. read_estimator. rewrite app_nil_r.
    apply Forall_flat_map. intros dt.
    repeat (apply Forall_cons_2; [ repeat split | ]). apply Forall_nil_2. }
  split.
  { unfold conversions, mse_calls. read_estimator. rewrite !app_nil_r.
    induction dts as [|dt l IH]; [reflexivity|].
    cbn [flat_map map fst snd concat app]. rewrite IH. reflexivity. }
  split.
  { unfold conversions. read_estimator. rewrite app_nil_r.
    apply Forall_flat_map. intros dt.
    apply Forall_cons_2; [ | apply Forall_nil_2 ].
    split; [reflexivity|]. split; [reflexivity|].
    repeat (apply Forall_cons_2; [ repeat split | ]). apply Forall_nil_2. }
  eexists _, _.
  split; [ rewrite estimator_trace; unfold Expected.estimator_events;
           rewrite (app_assoc (Expected.setup_events _ _ _ _ _)); reflexivity | ].
  split.
  { unfold regressions. rewrite omap_app, omap_flat_map.
    cbn [omap list_omap Expected.setup_events Expected.est_step_events
         Expected.step_events Expected.euler_call Expected.heun_call
         Expected.midpoint_call Expected.exact_call option_bind app].
    apply flat_map_nil. }
  split.
  { unfold conversions. rewrite !omap_app, omap_makedirs_events by reflexivity. reflexivity. }
  assert (Hreg : regressions
     (Expected.regression_events L (Expected.est_pv L w dev 10) (Expected.est_y0 w dev 4096 10)
        (Expected.est_ts w dev) 2 (Expected.est_bm L w dev 4096 10) ++
      Expected.rate_plot_events L (Expected.est_pv L w dev 10) (Expected.est_y0 w dev 4096 10)
        (Expected.est_ts w dev) 2 (Expected.est_bm L w dev 4096 10) ++
      Expected.makedirs_events Expected.img_dir (dirs w) (files w) ++
      [ESavefig Expected.rate_file; EClose]) =
    map (fun sol => (Expected.log_dts L,
                     Expected.half_log_mses L (Expected.est_pv L w dev 10)
                       (Expected.est_y0 w dev 4096 10) (Expected.est_ts w dev) 2
                       (Expected.est_bm L w dev 4096 10) sol))
        [Expected.est_euler L w dev 4096 10; Expected.est_heun L w dev 4096 10;
         Expected.est_midpoint L w dev 4096 10]).
  { unfold regressions. rewrite !omap_app, omap_makedirs_events by reflexivity. reflexivity. }
  rewrite Hreg.
  split; [ reflexivity | ].
  split.
  { repeat (apply Forall_cons_2;
            [ cbn [fst snd]; unfold Expected.log_dts, Expected.half_log_mses,
                Expected.mses_array; cbn [np_log_array array_halve a_shape a_data];
              rewrite ?length_map; repeat split | ]).
    apply Forall_nil_2. }
  intros k Hk.
  unfold conversions. rewrite omap_app, omap_flat_map.
  cbn [omap list_omap Expected.setup_events Expected.est_step_events
       Expected.step_events Expected.euler_call Expected.heun_call
       Expected.midpoint_call Expected.exact_call option_bind app].
  rewrite flat_map_singleton, omap_map.
  destruct k as [|[|[|k]]]; [ | | | lia ];
    cbn [snd lookup list_lookup]; rewrite omap_Some;
    (eexists _, _; split;
     [ apply (np_array_mses (Expected.est_pv L w dev 10) (Expected.est_y0 w dev 4096 10)
                (Expected.est_ts w dev) 2 (Expected.est_bm L w dev 4096 10));
       [ intros; reflexivity | apply dts_nonempty ]
     | split; reflexivity ]).
Qed.

(** ** Device and precision *)

Lemma makedirs_events_on dev dt p ds fs :
  Forall (event_on dev dt) (Expected.makedirs_events p ds fs).
Proof.
  unfold Expected.makedirs_events. destruct (Expected.path_present p ds fs).
  - apply Forall_nil_2.
  - apply Forall_cons_2; [ exact I | apply Forall_nil_2 ].
Qed.

Lemma plot_events_on dev dt t x : Forall (event_on dev dt) (Expected.plot_events t x).
Proof.
  destruct x as [i [[[e h] m] a]]. unfold Expected.plot_events, Expected.sample_lines.
  cbn [fst snd map app]. repeat (apply Forall_cons_2; [ exact I | ]). apply Forall_nil_2.
Qed.

(** Each event of an explicit list is on the device, in the precision. *)
Ltac events_on :=
  repeat (apply Forall_cons_2;
          [ cbn [event_on Expected.euler_call Expected.heun_call Expected.midpoint_call
                 Expected.exact_call];
            unfold tensor_on;
            repeat first [ split | apply Forall_cons_2 | apply Forall_nil_2 ]; reflexivity
          | ]);
  apply Forall_nil_2.

Lemma estimator_events_on w dev :
  Forall (event_on dev (default_dtype w)) (Expected.estimator_events L w dev 4096 10).
Proof.
  unfold Expected.estimator_events.
  apply Forall_app; split; [ unfold Expected.setup_events; events_on | ].
  apply Forall_app; split.
  { apply Forall_flat_map. intros dt.
    unfold Expected.est_step_events, Expected.step_events. events_on. }
  apply Forall_app; split; [ unfold Expected.regression_events; events_on | ].
  apply Forall_app; split; [ unfold Expected.rate_plot_events; events_on | ].
  apply Forall_app; split; [ apply makedirs_events_on | events_on ].
Qed.

Lemma sample_events_on w dev :
  Forall (event_on dev (default_dtype w)) (Expected.sample_events L w dev).
Proof.
  unfold Expected.sample_events.
  apply Forall_app; split; [ unfold Expected.setup_events; events_on | ].
  apply Forall_app; split; [ events_on | ].
  apply Forall_app; split; [ apply makedirs_events_on | ].
  apply Forall_flat_map. intros x. apply plot_events_on.
Qed.

(** Reading the events of a whole run with an [f] that sees no plotting and
    no directory creation. *)
Ltac read_main :=
  rewrite main_trace, !omap_app, omap_sample_events, omap_estimator_events by reflexivity;
  cbn [omap list_omap Expected.startup_events Expected.setup_events Expected.est_step_events
       Expected.step_events Expected.regression_events Expected.rate_plot_events
       Expected.euler_call Expected.heun_call Expected.midpoint_call Expected.exact_call
       option_bind app];
  rewrite ?flat_map_nil.


(** ** The files a run writes *)

Lemma elem_of_map {A B} (f : A -> B) (l : list A) (y : B) :
  y ∈ map f l <-> exists x, y = f x /\ x ∈ l.
Proof. exact (list_elem_of_fmap f l y). Qed.

Lemma map_fst_enumerate {A} (l : list A) : map fst (enumerate l) = seq 0 (length l).
Proof.
  unfold enumerate. generalize 0 as k.
  induction l as [|x l IH]; intros k; [ reflexivity | ].
  cbn [length seq zip zip_with map fst]. rewrite IH. reflexivity.
Qed.

Lemma zip4_length_eq {A} (a b c d : list A) n :
  length a = n -> length b = n -> length c = n -> length d = n ->
  length (zip4 a b c d) = n.
Proof.
  revert a b c d. induction n as [|n IH]; intros [|x a] [|y b] [|z c] [|u d]; cbn;
    try discriminate; try reflexivity.
  intros [= Ha] [= Hb] [= Hc] [= Hd]. rewrite (IH a b c d) by assumption. reflexivity.
Qed.

Lemma rows_of_paths_length r :
  length (Expected.rows_of (tensor_to_numpy (Expected.paths r))) = 32.
Proof.
  unfold Expected.rows_of, array_rows, tensor_to_numpy, Expected.paths.
  cbn [a_shape t_shape]. rewrite length_map, length_seq. reflexivity.
Qed.

(** The plotting loop runs over the batch elements 0 to 31. *)
Lemma sample_rows_indices w dev : map fst (Expected.sample_rows L w dev) = seq 0 32.
Proof.
  unfold Expected.sample_rows. rewrite map_fst_enumerate.
  rewrite (zip4_length_eq _ _ _ _ 32) by apply rows_of_paths_length. reflexivity.
Qed.

Lemma saved_plot_events t xs :
  saved (flat_map (Expected.plot_events t) xs) = map Expected.sample_file (map fst xs).
Proof.
  unfold saved. induction xs as [|[i [[[e h] m] a]] xs IH]; [ reflexivity | ].
  cbn [flat_map map fst]. rewrite omap_app, IH. reflexivity.
Qed.

Lemma saved_sample_events w dev :
  saved (Expected.sample_events L w dev) = map Expected.sample_file (seq 0 32).
Proof.
  unfold Expected.sample_events.
  unfold saved at 1. rewrite !omap_app, omap_makedirs_events by reflexivity.
  fold (saved (flat_map (Expected.plot_events (Expected.ts_ L w dev))
                        (Expected.sample_rows L w dev))).
  rewrite saved_plot_events, sample_rows_indices. reflexivity.
Qed.

Lemma saved_estimator_events w dev :
  saved (Expected.estimator_events L w dev 4096 10) = [Expected.rate_file].
Proof.
  unfold saved. rewrite omap_estimator_events by reflexivity.
  cbn [omap list_omap Expected.setup_events Expected.est_step_events
       Expected.step_events Expected.regression_events Expected.rate_plot_events
       Expected.euler_call Expected.heun_call Expected.midpoint_call Expected.exact_call
       option_bind app].
  rewrite flat_map_nil. reflexivity.
Qed.

(** The names the script saves under, and the files they give. *)
Lemma targets_distinct :
  NoDup (map savefig_target (map Expected.sample_file (seq 0 32) ++ [Expected.rate_file])).
Proof. refine (bool_decide_unpack _ _). vm_compute. exact I. Qed.


(** Saving the figures of [xs] leaves every other file as it was. *)
Lemma files_after_other t xs : forall fs f,
  f ∉ map savefig_target (map Expected.sample_file (map fst xs)) ->
  Expected.files_after t xs fs !! f = fs !! f.
Proof.
  induction xs as [|x xs IH]; intros fs f Hf; [ reflexivity | ].
  cbn [map] in Hf. apply not_elem_of_cons in Hf as [Hne Hf].
  unfold Expected.files_after. cbn [foldl].
  fold (Expected.files_after t xs
          (<[savefig_target (Expected.sample_file x.1) := Expected.sample_figure t x.2]> fs)).
  rewrite IH by exact Hf. apply lookup_insert_ne. congruence.
Qed.

(** With distinct names, the file of each element holds its figure. *)
Lemma files_after_lookup t xs : forall fs x,
  NoDup (map savefig_target (map Expected.sample_file (map fst xs))) ->
  x ∈ xs ->
  Expected.files_after t xs fs !! savefig_target (Expected.sample_file x.1) =
  Some (Expected.sample_figure t x.2).
Proof.
  induction xs as [|y xs IH]; intros fs x Hnd Hx; [ apply elem_of_nil in Hx; contradiction | ].
  cbn [map] in Hnd. apply NoDup_cons in Hnd as [Hy Hnd].
  unfold Expected.files_after. cbn [foldl].
  fold (Expected.files_after t xs
          (<[savefig_target (Expected.sample_file y.1) := Expected.sample_figure t y.2]> fs)).
  apply elem_of_cons in Hx as [->|Hx].
  - rewrite files_after_other by exact Hy. apply lookup_insert_eq.
  - apply IH; assumption.
Qed.

(** *** The files of a whole run *)

Lemma main_saved w args :
  saved (new_events w (Expected.main_world L w args)) =
  map Expected.sample_file (seq 0 32) ++ [Expected.rate_file].
Proof.
  rewrite main_trace. unfold saved. rewrite !omap_app.
  fold (saved (Expected.sample_events L (Expected.startup_world L w args)
                 (Expected.chosen_device w args))).
  fold (saved (Expected.estimator_events L
                 (Expected.sample_world L (Expected.startup_world L w args)
                    (Expected.chosen_device w args))
                 (Expected.chosen_device w args) 4096 10)).
  rewrite saved_sample_events, saved_estimator_events. reflexivity.
Qed.

Lemma main_img_dir w args :
  Expected.fs_ready w -> Expected.img_dir ∈ dirs (Expected.main_world L w args).
Proof.
  intros Hfs.
  unfold Expected.main_world, Expected.estimator_world, Expected.world_after. cbn [dirs].
  apply img_dir_made. left.
  unfold Expected.sample_world, Expected.world_after. cbn [dirs].
  apply img_dir_made. exact Hfs.
Qed.

Lemma sample_target_not_rate i :
  i < 32 -> savefig_target (Expected.sample_file i) <> savefig_target Expected.rate_file.
Proof.
  intros Hi Heq. pose proof targets_distinct as Hnd.
  rewrite map_app, NoDup_app in Hnd. destruct Hnd as (_ & Hnd & _).
  apply (Hnd (savefig_target Expected.rate_file)).
  - rewrite <- Heq. apply elem_of_map. exists (Expected.sample_file i).
    split; [ reflexivity | ]. apply elem_of_map. exists i.
    split; [ reflexivity | ]. apply elem_of_seq. lia.
  - apply list_elem_of_singleton. reflexivity.
Qed.

(** The file of batch element [i] holds the figure of its four
    trajectories. *)
Lemma main_file_sample w args i :
  i < 32 ->
  exists r,
    (i, r) ∈ Expected.sample_rows L (Expected.startup_world L w args)
                                  (Expected.chosen_device w args) /\
    files (Expected.main_world L w args) !! savefig_target (Expected.sample_file i) =
    Some (Expected.sample_figure
            (Expected.ts_ L (Expected.startup_world L w args) (Expected.chosen_device w args)) r).
Proof.
  intros Hi.
  set (W := Expected.startup_world L w args). set (dev := Expected.chosen_device w args).
  assert (Hin : i ∈ map fst (Expected.sample_rows L W dev)).
  { rewrite sample_rows_indices. apply elem_of_seq. lia. }
  apply elem_of_map in Hin as ([j r] & Hj & Hin). cbn [fst] in Hj. subst j.
  exists r. split; [ exact Hin | ].
  unfold Expected.main_world, Expected.estimator_world, Expected.world_after.
  cbn [files]. fold W dev.
  rewrite lookup_insert_ne by (apply not_eq_sym, sample_target_not_rate; exact Hi).
  apply (files_after_lookup _ _ _ (i, r)); [ | exact Hin ].
  rewrite sample_rows_indices.
  pose proof targets_distinct as Hnd. rewrite map_app, NoDup_app in Hnd. apply Hnd.
Qed.

Lemma main_file_rate w args :
  files (Expected.main_world L w args) !! savefig_target Expected.rate_file =
  Some (Expected.est_rate_figure L
          (Expected.sample_world L (Expected.startup_world L w args)
             (Expected.chosen_device w args))
          (Expected.chosen_device w args) 4096 10).
Proof.
  unfold Expected.main_world, Expected.estimator_world, Expected.world_after.
  cbn [files]. apply lookup_insert_eq.
Qed.

Lemma main_files_other w args f :
  f ∉ map savefig_target (map Expected.sample_file (seq 0 32) ++ [Expected.rate_file]) ->
  files (Expected.main_world L w args) !! f = files w !! f.
Proof.
  intros Hf. rewrite map_app in Hf. apply not_elem_of_app in Hf as [Hf1 Hf2].
  unfold Expected.main_world, Expected.estimator_world, Expected.world_after.
  cbn [files].
  rewrite lookup_insert_ne.
  2:{ intros Heq. apply Hf2. rewrite <- Heq. apply list_elem_of_singleton. reflexivity. }
  unfold Expected.sample_world, Expected.world_after. cbn [files].
  rewrite files_after_other; [ reflexivity | ].
  rewrite sample_rows_indices. exact Hf1.
Qed.


(** ** What a run leaves alone *)

Lemma dirs_after_mono p ds (fs : gmap string Figure) : ds ⊆ Expected.dirs_after p ds fs.
Proof.
  unfold Expected.dirs_after. destruct (Expected.path_present p ds fs).
  - reflexivity.
  - apply union_subseteq_r.
Qed.

Lemma dirs_after_present p ds (fs : gmap string Figure) :
  p ∈ ds -> Expected.dirs_after p ds fs = ds.
Proof.
  intros H. unfold Expected.dirs_after, Expected.path_present.
  rewrite bool_decide_eq_true_2 by (left; exact H). reflexivity.
Qed.

Lemma makedirs_events_present p ds (fs : gmap string Figure) :
  p ∈ ds -> Expected.makedirs_events p ds fs = [].
Proof.
  intros H. unfold Expected.makedirs_events, Expected.path_present.
  rewrite bool_decide_eq_true_2 by (left; exact H). reflexivity.
Qed.

(** The setup of a procedure touches no object that was there. *)
Lemma heap_after_old w dev ts n batch d r :
  r < next_id w -> Expected.heap_after L w dev ts n batch d !! r = heap w !! r.
Proof.
  intros Hr.
  unfold Expected.heap_after, Expected.bm_ref, Expected.strat_ref, Expected.p'_ref,
    Expected.sde_ref, Expected.p_ref.
  rewrite !lookup_insert_ne by lia. reflexivity.
Qed.

(** It makes five: two parameters, two models, a path. *)
Lemma heap_after_new w dev ts n batch d r :
  next_id w <= r < next_id w + 5 -> is_Some (Expected.heap_after L w dev ts n batch d !! r).
Proof.
  intros Hr.
  unfold Expected.heap_after, Expected.bm_ref, Expected.strat_ref, Expected.p'_ref,
    Expected.sde_ref, Expected.p_ref.
  assert (Hc : r = next_id w \/ r = S (next_id w) \/ r = S (S (next_id w)) \/
               r = S (S (S (next_id w))) \/ r = S (S (S (S (next_id w))))) by lia.
  destruct Hc as [->|[->|[->|[->| ->]]]];
    repeat first [ rewrite lookup_insert_eq; eexists; reflexivity
                 | rewrite lookup_insert_ne by lia ].
Qed.

(** *** The output directory *)

Lemma makedirs_events_ready w :
  Expected.fs_ready w ->
  directories_made (Expected.makedirs_events Expected.img_dir (dirs w) (files w)) =
  if bool_decide (Expected.img_dir ∈ dirs w) then [] else [Expected.img_dir].
Proof.
  intros Hfs. unfold Expected.makedirs_events, Expected.path_present.
  destruct (decide (Expected.img_dir ∈ dirs w)) as [Hd|Hd].
  - rewrite (bool_decide_eq_true_2 (_ ∨ _)) by (left; exact Hd).
    rewrite bool_decide_eq_true_2 by exact Hd. reflexivity.
  - rewrite (bool_decide_eq_false_2 (_ ∨ _)).
    + rewrite bool_decide_eq_false_2 by exact Hd. reflexivity.
    + intros [H|H]; [ contradiction | ]. destruct Hfs as [Hfs|Hfs]; contradiction.
Qed.

Lemma main_directories_made w args :
  Expected.fs_ready w ->
  directories_made (new_events w (Expected.main_world L w args)) =
  if bool_decide (Expected.img_dir ∈ dirs w) then [] else [Expected.img_dir].
Proof.
  intros Hfs. rewrite main_trace.
  set (W := Expected.startup_world L w args). set (dev := Expected.chosen_device w args).
  unfold Expected.estimator_events.
  rewrite (makedirs_events_present _ (dirs (Expected.sample_world L W dev))).
  2:{ unfold Expected.sample_world, Expected.world_after. cbn [dirs].
      apply img_dir_made. exact Hfs. }
  unfold Expected.sample_events.
  unfold directories_made at 1. rewrite !omap_app, !omap_flat_map.
  rewrite (flat_map_ext _ (fun _ => [])), flat_map_nil
    by (intros x; apply omap_plot_events; reflexivity).
  rewrite (flat_map_ext _ (fun _ => [])), flat_map_nil by (intros x; reflexivity).
  fold (directories_made (Expected.makedirs_events Expected.img_dir (dirs W) (files W))).
  rewrite (makedirs_events_ready W) by exact Hfs.
  cbn [Expected.startup_events Expected.setup_events omap list_omap app option_bind
       Expected.regression_events Expected.rate_plot_events
       Expected.euler_call Expected.heun_call Expected.midpoint_call Expected.exact_call].
  rewrite !app_nil_r. reflexivity.
Qed.


(** ** What the results depend on *)

(** The data of the sample-path comparison depend on the world it is
    entered in through the default precision and the two random sources
    only. *)
Lemma sample_data_eq W1 W2 dev :
  default_dtype W1 = default_dtype W2 -> torch_rng W1 = torch_rng W2 ->
  entropy_src W1 = entropy_src W2 ->
  Expected.ts_ L W1 dev = Expected.ts_ L W2 dev /\
  Expected.sample_rows L W1 dev = Expected.sample_rows L W2 dev /\
  default_dtype (Expected.sample_world L W1 dev) =
    default_dtype (Expected.sample_world L W2 dev) /\
  torch_rng (Expected.sample_world L W1 dev) = torch_rng (Expected.sample_world L W2 dev) /\
  entropy_src (Expected.sample_world L W1 dev) =
    entropy_src (Expected.sample_world L W2 dev).
Proof.
  intros Hd Hr He.
  destruct W1 as [ca1 gd1 dd1 ge1 rng1 src1 nid1 hp1 ds1 fs1 fg1 tr1].
  destruct W2 as [ca2 gd2 dd2 ge2 rng2 src2 nid2 hp2 ds2 fs2 fg2 tr2].
  cbn [default_dtype torch_rng entropy_src] in Hd, Hr, He. subst dd2 rng2 src2.
  repeat split; reflexivity.
Qed.

Lemma estimator_data_eq W1 W2 dev batch d :
  default_dtype W1 = default_dtype W2 -> torch_rng W1 = torch_rng W2 ->
  entropy_src W1 = entropy_src W2 ->
  Expected.est_ts W1 dev = Expected.est_ts W2 dev /\
  Expected.est_y0 W1 dev batch d = Expected.est_y0 W2 dev batch d /\
  Expected.est_pv L W1 dev d = Expected.est_pv L W2 dev d /\
  Expected.est_bm L W1 dev batch d = Expected.est_bm L W2 dev batch d /\
  torch_rng (Expected.estimator_world L W1 dev batch d) =
    torch_rng (Expected.estimator_world L W2 dev batch d) /\
  entropy_src (Expected.estimator_world L W1 dev batch d) =
    entropy_src (Expected.estimator_world L W2 dev batch d).
Proof.
  intros Hd Hr He.
  destruct W1 as [ca1 gd1 dd1 ge1 rng1 src1 nid1 hp1 ds1 fs1 fg1 tr1].
  destruct W2 as [ca2 gd2 dd2 ge2 rng2 src2 nid2 hp2 ds2 fs2 fg2 tr2].
  cbn [default_dtype torch_rng entropy_src] in Hd, Hr, He. subst dd2 rng2 src2.
  repeat split; reflexivity.
Qed.

Lemma files_after_agree t xs : forall (fs1 fs2 : gmap string Figure) f,
  f ∈ map savefig_target (map Expected.sample_file (map fst xs)) ->
  Expected.files_after t xs fs1 !! f = Expected.files_after t xs fs2 !! f.
Proof.
  induction xs as [|x xs IH]; intros fs1 fs2 f Hf; [ apply elem_of_nil in Hf; contradiction | ].
  unfold Expected.files_after. cbn [foldl].
  fold (Expected.files_after t xs
          (<[savefig_target (Expected.sample_file x.1) := Expected.sample_figure t x.2]> fs1)).
  fold (Expected.files_after t xs
          (<[savefig_target (Expected.sample_file x.1) := Expected.sample_figure t x.2]> fs2)).
  destruct (decide (f ∈ map savefig_target (map Expected.sample_file (map fst xs))))
    as [Hin|Hout].
  - apply IH. exact Hin.
  - cbn [map] in Hf. apply elem_of_cons in Hf as [->|Hf]; [ | contradiction ].
    rewrite !files_after_other by exact Hout. rewrite !lookup_insert_eq. reflexivity.
Qed.

Lemma plotted_sample_events w dev :
  plotted_lines (Expected.sample_events L w dev) =
  flat_map (fun x => Expected.sample_lines (Expected.ts_ L w dev) x.2)
           (Expected.sample_rows L w dev).
Proof.
  unfold Expected.sample_events, plotted_lines.
  rewrite !omap_app, omap_makedirs_events, omap_flat_map by reflexivity.
  cbn [omap list_omap Expected.setup_events option_bind app
       Expected.euler_call Expected.heun_call Expected.midpoint_call Expected.exact_call].
  apply flat_map_ext. intros [i [[[e h] m] a]]. reflexivity.
Qed.

Lemma plotted_estimator_events w dev :
  plotted_lines (Expected.estimator_events L w dev 4096 10) =
  Expected.rate_lines L (Expected.est_pv L w dev 10) (Expected.est_y0 w dev 4096 10)
    (Expected.est_ts w dev) 2 (Expected.est_bm L w dev 4096 10).
Proof.
  unfold plotted_lines. rewrite omap_estimator_events by reflexivity.
  cbn [omap list_omap Expected.setup_events Expected.est_step_events
       Expected.step_events Expected.regression_events Expected.rate_plot_events
       Expected.euler_call Expected.heun_call Expected.midpoint_call Expected.exact_call
       option_bind app].
  rewrite flat_map_nil. reflexivity.
Qed.

(** What the estimator computes and plots depends on the world it is
    entered in through the default precision and the random sources only. *)
Lemma estimator_reads_eq W1 W2 dev :
  default_dtype W1 = default_dtype W2 -> torch_rng W1 = torch_rng W2 ->
  entropy_src W1 = entropy_src W2 ->
  mse_calls (Expected.estimator_events L W1 dev 4096 10) =
    mse_calls (Expected.estimator_events L W2 dev 4096 10) /\
  regressions (Expected.estimator_events L W1 dev 4096 10) =
    regressions (Expected.estimator_events L W2 dev 4096 10) /\
  plotted_lines (Expected.estimator_events L W1 dev 4096 10) =
    plotted_lines (Expected.estimator_events L W2 dev 4096 10) /\
  Expected.est_rate_figure L W1 dev 4096 10 = Expected.est_rate_figure L W2 dev 4096 10.
Proof.
  intros Hd Hr He.
  destruct (estimator_data_eq W1 W2 dev 4096 10 Hd Hr He) as (Hts & Hy0 & Hpv & Hbm & _).
  rewrite !plotted_estimator_events.
  unfold mse_calls, regressions, Expected.est_rate_figure, Expected.rate_figure.
  rewrite !omap_estimator_events by reflexivity.
  cbn [omap list_omap Expected.setup_events Expected.est_step_events
       Expected.step_events Expected.regression_events Expected.rate_plot_events
       Expected.euler_call Expected.heun_call Expected.midpoint_call Expected.exact_call
       option_bind app].
  rewrite Hts, Hy0, Hpv, Hbm. repeat split; reflexivity.
Qed.


(** ** The plots *)

Lemma pyplot_protocol_app l1 : forall st l2,
  pyplot_protocol st (l1 ++ l2) =
  match pyplot_protocol st l1 with
  | Some st' => pyplot_protocol st' l2
  | None => None
  end.
Proof.
  induction l1 as [|e l1 IH]; intros st l2; [ reflexivity | ].
  cbn [app pyplot_protocol]. destruct (pyplot_step st e); [ apply IH | reflexivity ].
Qed.

(** Events that are no pyplot calls leave the figure as it is. *)
Lemma pyplot_protocol_other l st :
  Forall (fun e => forall st', pyplot_step st' e = Some st') l -> pyplot_protocol st l = Some st.
Proof.
  induction 1 as [|e l He _ IH]; [ reflexivity | ].
  cbn [pyplot_protocol]. rewrite He. exact IH.
Qed.

Lemma pyplot_makedirs_events st p ds fs :
  pyplot_protocol st (Expected.makedirs_events p ds fs) = Some st.
Proof.
  unfold Expected.makedirs_events. destruct (Expected.path_present p ds fs); reflexivity.
Qed.

Lemma pyplot_flat_map {A} (g : A -> list Event) l st :
  (forall x, pyplot_protocol st (g x) = Some st) -> pyplot_protocol st (flat_map g l) = Some st.
Proof.
  intros H. induction l as [|x l IH]; [ reflexivity | ].
  cbn [flat_map]. rewrite pyplot_protocol_app, H. exact IH.
Qed.

Ltac other_events :=
  repeat (apply Forall_cons_2; [ intros []; reflexivity | ]); apply Forall_nil_2.

Lemma pyplot_sample_events w dev :
  pyplot_protocol NoFigure (Expected.sample_events L w dev) = Some NoFigure.
Proof.
  unfold Expected.sample_events.
  rewrite pyplot_protocol_app,
    (pyplot_protocol_other (Expected.setup_events _ _ _ _ _)) by other_events.
  cbv beta iota.
  rewrite pyplot_protocol_app, (pyplot_protocol_other [_; _; _; _; _]) by other_events.
  cbv beta iota.
  rewrite pyplot_protocol_app, pyplot_makedirs_events. cbv beta iota.
  apply pyplot_flat_map. intros [i [[[e h] m] a]]. reflexivity.
Qed.

Lemma pyplot_estimator_events w dev :
  pyplot_protocol NoFigure (Expected.estimator_events L w dev 4096 10) = Some NoFigure.
Proof.
  unfold Expected.estimator_events.
  rewrite pyplot_protocol_app,
    (pyplot_protocol_other (Expected.setup_events _ _ _ _ _)) by other_events.
  cbv beta iota.
  rewrite pyplot_protocol_app, pyplot_flat_map
    by (intros dt; apply pyplot_protocol_other; other_events).
  cbv beta iota.
  rewrite pyplot_protocol_app,
    (pyplot_protocol_other (Expected.regression_events _ _ _ _ _ _)) by other_events.
  cbv beta iota.
  rewrite pyplot_protocol_app.
  change (pyplot_protocol NoFigure (Expected.rate_plot_events _ _ _ _ _ _)) with (Some Drawing).
  cbv beta iota.
  rewrite pyplot_protocol_app, pyplot_makedirs_events. reflexivity.
Qed.

(** *** The shapes plotted *)

Lemma elem_of_zip4 {A} (a b c d : list A) x y z u :
  (x, y, z, u) ∈ zip4 a b c d -> x ∈ a /\ y ∈ b /\ z ∈ c /\ u ∈ d.
Proof.
  revert b c d. induction a as [|x' a IH]; intros [|y' b] [|z' c] [|u' d] H; cbn [zip4] in H;
    try (apply elem_of_nil in H; contradiction).
  apply elem_of_cons in H as [[= -> -> -> ->]|H].
  - repeat split; apply list_elem_of_here.
  - apply IH in H as (? & ? & ? & ?). repeat split; apply list_elem_of_further; assumption.
Qed.

(** Every row of a transposed solution has one entry per time point. *)
Lemma rows_of_paths_shape r a :
  a ∈ Expected.rows_of (tensor_to_numpy (Expected.paths r)) -> a_shape a = [100].
Proof.
  unfold Expected.rows_of, array_rows, tensor_to_numpy, Expected.paths.
  cbn [a_shape t_shape]. intros H. apply elem_of_map in H as (i & -> & _). reflexivity.
Qed.

Lemma sample_rows_shape w dev i e h m a :
  (i, (e, h, m, a)) ∈ Expected.sample_rows L w dev ->
  a_shape e = [100] /\ a_shape h = [100] /\ a_shape m = [100] /\ a_shape a = [100].
Proof.
  unfold Expected.sample_rows, enumerate. intros H.
  apply elem_of_zip_r in H. cbn [snd] in H.
  apply elem_of_zip4 in H as (He & Hh & Hm & Ha).
  repeat split; eapply rows_of_paths_shape; eassumption.
Qed.

Lemma sample_lines_length t (xs : list (nat * (NDArray * NDArray * NDArray * NDArray))) :
  length (flat_map (fun x => Expected.sample_lines t x.2) xs) = 4 * length xs.
Proof.
  induction xs as [|[i [[[e h] m] a]] xs IH]; [ reflexivity | ].
  cbn [flat_map length Expected.sample_lines snd app]. rewrite IH. lia.
Qed.

Lemma sample_rows_length w dev : length (Expected.sample_rows L w dev) = 32.
Proof.
  rewrite <- (length_map fst), sample_rows_indices. reflexivity.
Qed.

Lemma rate_line_shape pv y0 ts n bo name (sol : float -> Tensor) :
  (forall dt, t_dtype (sol dt) = t_dtype y0) ->
  plot_shape (ln_x (Expected.rate_line L pv y0 ts n bo name sol)) = Some [8] /\
  plot_shape (ln_y (Expected.rate_line L pv y0 ts n bo name sol)) = Some [8].
Proof.
  intros Hsol. unfold Expected.rate_line, plot_shape. cbn [ln_x ln_y]. split; [ reflexivity | ].
  unfold Expected.mses. rewrite np_array_mses by (first [ exact Hsol | apply dts_nonempty ]).
  reflexivity.
Qed.

Lemma Forall_flat_map_in {A B} (P : B -> Prop) (g : A -> list B) (l : list A) :
  (forall x, x ∈ l -> Forall P (g x)) -> Forall P (flat_map g l).
Proof.
  intros H. induction l as [|x l IH]; [ constructor | ].
  cbn [flat_map]. apply Forall_app. split.
  - apply H. apply list_elem_of_here.
  - apply IH. intros y Hy. apply H. apply list_elem_of_further. exact Hy.
Qed.


(** ** A file in the way of the output directory *)

Lemma for_each_head_fails {A S} (body : A -> S -> M S) x xs s w e w' :
  body x s w = (inl e, w') -> for_each (x :: xs) body s w = (inl e, w').
Proof. intros H. cbn [for_each]. erewrite bind_inl by exact H. reflexivity. Qed.

Lemma open_error_file d target w :
  d ∈ dom (files w) -> open_error d target w = NotADirectoryError target.
Proof.
  intros H. unfold open_error. rewrite bool_decide_eq_true_2; [ reflexivity | ].
  apply Exists_cons_hd. exact H.
Qed.

Lemma plt_savefig_fails fname w fg rest :
  figs w = fg :: rest -> dirname fname ∉ dirs w -> dirname fname ∈ dom (files w) ->
  plt_savefig fname w = (inl (NotADirectoryError (savefig_target fname)), w).
Proof.
  intros Hf Hd Hin. unfold plt_savefig. rewrite Hf. cbn [on_current].
  rewrite bool_decide_eq_false_2 by exact Hd. rewrite open_error_file by exact Hin.
  rewrite <- Hf. destruct w; reflexivity.
Qed.

(** The body of the plotting loop, when the directory is not there: the
    figure is drawn, saving it fails, and it stays open. *)
Lemma sample_body_blocked w t x :
  Expected.img_dir ∉ dirs w -> Expected.img_dir ∈ dom (files w) -> Expected.name_ok x.1 ->
  inspect_sample_body t Expected.img_dir x tt w =
  (inl (NotADirectoryError (savefig_target (Expected.sample_file x.1))),
   set_trace (trace w ++ [EFigure] ++ map EPlot (Expected.sample_lines t x.2) ++ [ELegend])
     (set_figs (Expected.sample_figure t x.2 :: figs w) w)).
Proof.
  intros Hd Hf [Hname Hdir]. destruct x as [i [[[e h] m] a]]. cbn [fst snd] in *.
  unfold inspect_sample_body. rewrite Hname.
  destruct w as [ca gd dd ge rng src nid hp ds fs fg tr]. cbn [dirs files] in Hd, Hf.
  do 6 (erewrite bind_inr by reflexivity; cbv beta; norm).
  erewrite bind_inl by
    (eapply plt_savefig_fails;
     [ norm; reflexivity | norm; rewrite Hdir; exact Hd | norm; rewrite Hdir; exact Hf ]).
  unfold Expected.sample_figure, Expected.sample_lines.
  cbn [fst snd map app on_current fig_lines fig_xscale fig_yscale fig_legend new_figure].
  rewrite <- !app_assoc. reflexivity.
Qed.

Lemma dirs_after_blocked p ds (fs : gmap string Figure) :
  p ∈ dom fs -> Expected.dirs_after p ds fs = ds /\ Expected.makedirs_events p ds fs = [].
Proof.
  intros H. unfold Expected.dirs_after, Expected.makedirs_events, Expected.path_present.
  rewrite bool_decide_eq_true_2 by (right; exact H). split; reflexivity.
Qed.

Lemma sample_rows_head w dev :
  exists r rest, Expected.sample_rows L w dev = (0, r) :: rest.
Proof.
  pose proof (sample_rows_indices w dev) as H.
  destruct (Expected.sample_rows L w dev) as [|[i r] rest]; [ discriminate | ].
  cbn [map fst seq] in H. injection H as -> _. exists r, rest. reflexivity.
Qed.

(** The sample-path comparison when a regular file has the name of the
    output directory: all is computed, the first figure is drawn, and saving
    it fails. *)
Lemma inspect_sample_blocked w dev :
  glob_device w = Some dev ->
  Expected.img_dir ∉ dirs w -> Expected.img_dir ∈ dom (files w) ->
  exists r rest,
    Expected.sample_rows L w dev = (0, r) :: rest /\
    inspect_sample L w =
    (inl (NotADirectoryError (savefig_target (Expected.sample_file 0))),
     set_figs (Expected.sample_figure (Expected.ts_ L w dev) r :: figs w)
       (Expected.world_after L w dev (Expected.smp_ts L w dev) 100 32 1
          (take 13 (Expected.sample_events L w dev) ++
           [EFigure] ++ map EPlot (Expected.sample_lines (Expected.ts_ L w dev) r) ++ [ELegend])
          (files w))).
Proof.
  intros Hdev Hd Hf.
  destruct (sample_rows_head w dev) as (r & rest & Hrows). exists r, rest.
  split; [ exact Hrows | ].
  destruct (dirs_after_blocked Expected.img_dir (dirs w) (files w) Hf) as [Hda Hme].
  unfold inspect_sample. cbv zeta.
  destruct w as [ca gd dd ge rng src nid hp ds fs fg tr].
  cbn [glob_device dirs files] in Hdev, Hd, Hf, Hda, Hme. subst gd.
  do 12 exec1.
  erewrite bind_inr; cycle 1.
  { eapply no_grad_run. norm.
    do 4 exec1.
    do 3 exec_solver sdeint_run.
    exec_solver analytical_sample_run.
    do 5 exec1.
    reflexivity. }
  cbv beta iota. norm.
  rewrite img_dir_eq.
  exec1. rewrite Hda, Hme, app_nil_r.
  do 4 exec1.
  lazymatch goal with
  | |- for_each ?xs _ _ _ = _ =>
      change xs with (Expected.sample_rows L (mkWorld ca (Some dev) dd ge rng src nid hp ds fs fg tr) dev)
  end.
  rewrite Hrows.
  erewrite for_each_head_fails; cycle 1.
  { apply sample_body_blocked; [ exact Hd | exact Hf | apply names_ok; cbn [fst]; lia ]. }
  norm.
  unfold Expected.world_after. norm. rewrite Hda.
  f_equal. f_equal.
  all: try reflexivity.
  rewrite <- !app_assoc. reflexivity.
Qed.

(** The estimator in the same situation: every integration, MSE and
    regression is done and the rate plot drawn before saving it fails. *)
Lemma inspect_strong_order_blocked w dev :
  glob_device w = Some dev ->
  Expected.img_dir ∉ dirs w -> Expected.img_dir ∈ dom (files w) ->
  inspect_strong_order L w =
  (inl (NotADirectoryError (savefig_target Expected.rate_file)),
   set_figs (Expected.est_rate_figure L w dev 4096 10 :: figs w)
     (Expected.world_after L w dev (Expected.est_ts w dev) 2 4096 10
        (Expected.setup_events w dev (Expected.est_ts w dev) 4096 10 ++
         flat_map (Expected.est_step_events L w dev 4096 10) dts ++
         Expected.regression_events L (Expected.est_pv L w dev 10)
           (Expected.est_y0 w dev 4096 10) (Expected.est_ts w dev) 2
           (Expected.est_bm L w dev 4096 10) ++
         Expected.rate_plot_events L (Expected.est_pv L w dev 10)
           (Expected.est_y0 w dev 4096 10) (Expected.est_ts w dev) 2
           (Expected.est_bm L w dev 4096 10))
        (files w))).
Proof.
  intros Hdev Hd Hf.
  destruct (dirs_after_blocked Expected.img_dir (dirs w) (files w) Hf) as [Hda Hme].
  unfold inspect_strong_order.
  remember 4096 as batch eqn:Hbatch. cbv zeta.
  destruct w as [ca gd dd ge rng src nid hp ds fs fg tr].
  cbn [glob_device dirs files] in Hdev, Hd, Hf, Hda, Hme. subst gd.
  do 12 exec1.
  erewrite bind_inr; cycle 1.
  { eapply no_grad_run. norm.
    do 4 exec1.
    eapply estimator_loop_run with (d := 10) (d' := 10).
    - split; [lookup_tac | split; [lookup_tac | split; [lookup_tac | lookup_tac]]].
    - reflexivity. }
  cbv beta. norm.
  exec1.
  (exec_log_dts; exec_log_mses; exec1; cbv zeta).
  (exec_log_dts; exec_log_mses; exec1; cbv zeta).
  (exec_log_dts; exec_log_mses; exec1; cbv zeta).
  do 7 exec1.
  rewrite img_dir_eq.
  rewrite rate_file_eq.
  exec1. rewrite Hda, Hme, app_nil_r.
  erewrite bind_inl by
    (eapply plt_savefig_fails;
     [ norm; reflexivity | norm; rewrite dirname_rate_file; exact Hd
     | norm; rewrite dirname_rate_file; exact Hf ]).
  unfold Expected.world_after. norm. rewrite Hda.
  clear Hbatch.
  f_equal.
  f_equal.
  all: try reflexivity.
  rewrite <- !app_assoc. reflexivity.
Qed.

(** Run as a script in that situation: the startup block does its work and
    the sample-path comparison fails; the estimator is not entered. *)
Lemma main_blocked w args :
  Expected.img_dir ∉ dirs w -> Expected.img_dir ∈ dom (files w) ->
  exists r rest,
    Expected.sample_rows L (Expected.startup_world L w args) (Expected.chosen_device w args) =
      (0, r) :: rest /\
    main L args w =
    (inl (NotADirectoryError (savefig_target (Expected.sample_file 0))),
     set_figs (Expected.sample_figure
                 (Expected.ts_ L (Expected.startup_world L w args)
                    (Expected.chosen_device w args)) r :: figs w)
       (Expected.world_after L (Expected.startup_world L w args) (Expected.chosen_device w args)
          (Expected.smp_ts L (Expected.startup_world L w args) (Expected.chosen_device w args))
          100 32 1
          (take 13 (Expected.sample_events L (Expected.startup_world L w args)
                      (Expected.chosen_device w args)) ++
           [EFigure] ++
           map EPlot (Expected.sample_lines
                        (Expected.ts_ L (Expected.startup_world L w args)
                           (Expected.chosen_device w args)) r) ++
           [ELegend])
          (files w))).
Proof.
  intros Hd Hf.
  destruct (inspect_sample_blocked (Expected.startup_world L w args)
              (Expected.chosen_device w args) eq_refl Hd Hf) as (r & rest & Hrows & Hrun).
  exists r, rest. split; [ exact Hrows | ].
  unfold main. destruct w as [ca gd dd ge rng src nid hp ds fs fg tr].
  do 4 exec1. rewrite <- !app_assoc. cbn [app].
  erewrite bind_inl by exact Hrun. reflexivity.
Qed.

(** *** A run that returns normally had its output path free *)

Lemma fs_cases w :
  Expected.fs_ready w \/
  ((Expected.img_dir ∉ dirs w) /\ (Expected.img_dir ∈ dom (files w))).
Proof.
  unfold Expected.fs_ready.
  destruct (decide (Expected.img_dir ∈ dirs w)) as [Hd|Hd]; [ left; left; exact Hd | ].
  destruct (decide (Expected.img_dir ∈ dom (files w))) as [Hf|Hf];
    [ right; split; assumption | left; right; exact Hf ].
Qed.

Lemma inspect_sample_returns w :
  (inspect_sample L w).1 = inr tt ->
  exists dev, glob_device w = Some dev /\ Expected.fs_ready w.
Proof.
  intros Hok. destruct (glob_device w) as [dev|] eqn:Hdev.
  - exists dev. split; [ reflexivity | ].
    destruct (fs_cases w) as [Hfs|[Hd Hf]]; [ exact Hfs | ].
    destruct (inspect_sample_blocked w dev Hdev Hd Hf) as (r & rest & _ & Hrun).
    rewrite Hrun in Hok. discriminate.
  - unfold inspect_sample in Hok. cbv zeta in Hok.
    erewrite bind_inl in Hok by (apply global_device_unbound; exact Hdev). discriminate.
Qed.

Lemma inspect_strong_order_returns w :
  (inspect_strong_order L w).1 = inr tt ->
  exists dev, glob_device w = Some dev /\ Expected.fs_ready w.
Proof.
  intros Hok. destruct (glob_device w) as [dev|] eqn:Hdev.
  - exists dev. split; [ reflexivity | ].
    destruct (fs_cases w) as [Hfs|[Hd Hf]]; [ exact Hfs | ].
    rewrite (inspect_strong_order_blocked w dev Hdev Hd Hf) in Hok. discriminate.
  - unfold inspect_strong_order in Hok. cbv zeta in Hok.
    erewrite bind_inl in Hok by (apply global_device_unbound; exact Hdev). discriminate.
Qed.

Lemma main_returns w args : (main L args w).1 = inr tt -> Expected.fs_ready w.
Proof.
  intros Hok. destruct (fs_cases w) as [Hfs|[Hd Hf]]; [ exact Hfs | ].
  destruct (main_blocked w args Hd Hf) as (r & rest & _ & Hrun).
  rewrite Hrun in Hok. discriminate.
Qed.

(** What a failing run added to the trace. *)
Lemma main_blocked_trace w args fig evs fs :
  new_events w
    (set_figs (fig :: figs w)
       (Expected.world_after L (Expected.startup_world L w args) (Expected.chosen_device w args)
          (Expected.smp_ts L (Expected.startup_world L w args) (Expected.chosen_device w args))
          100 32 1 evs fs)) =
  Expected.startup_events w args ++ evs.
Proof.
  apply new_events_app. unfold Expected.world_after, Expected.startup_world.
  cbn [set_figs trace]. rewrite <- app_assoc. reflexivity.
Qed.

(** The MSEs of the estimator are computed, and handed to numpy, before it
    touches the file system: they are in the trace whether or not the plot
    can be saved. *)
Lemma estimator_mse_reads w dev :
  glob_device w = Some dev ->
  mse_calls (new_events w (inspect_strong_order L w).2) =
    flat_map (fun dt => mse_calls (Expected.est_step_events L w dev 4096 10 dt)) dts /\
  conversions (new_events w (inspect_strong_order L w).2) =
    flat_map (fun dt => conversions (Expected.est_step_events L w dev 4096 10 dt)) dts.
Proof.
  intros Hdev. destruct (fs_cases w) as [Hfs|[Hd Hf]].
  - rewrite (inspect_strong_order_run w dev Hdev Hfs). cbn [snd].
    unfold mse_calls, conversions. rewrite estimator_trace, !omap_estimator_events by reflexivity.
    cbn [omap list_omap Expected.setup_events Expected.regression_events
         Expected.rate_plot_events option_bind app].
    rewrite !app_nil_r. split; reflexivity.
  - rewrite (inspect_strong_order_blocked w dev Hdev Hd Hf). cbn [snd].
    erewrite new_events_app by reflexivity.
    unfold mse_calls, conversions. rewrite !omap_app, !omap_flat_map.
    cbn [omap list_omap Expected.setup_events Expected.regression_events
         Expected.rate_plot_events option_bind app].
    rewrite !app_nil_r. split; reflexivity.
Qed.

(** * Whole runs *)

(** C2: in every run of the script, whether or not it gets to the end, the
    device is chosen once, at startup: the accelerator if and only if there
    is one and [--no-gpu] was not given, the general-purpose processor
    otherwise.  The global is bound once, the default dtype set once, to
    float64, and the generator seeded once, with 0, these being the first
    three things the run does; and every tensor the run creates, hands to a
    solver or to [compute_mse] or gets back from them, every move of a model
    and every path object is on that device, in float64.  A run that
    returns normally has gone through both procedures: 3 + 3 x 8
    integrations, two path objects. *)
Theorem device_and_precision_fixed_at_startup (w : World) (args : Args) :
  let dev := if cuda_available w && negb (no_gpu args) then cuda else cpu in
  let w' := (main L args w).2 in
  let evs := new_events w w' in
  (dev = cuda <-> cuda_available w = true /\ no_gpu args = false) /\
  (dev = cpu <-> ~ (cuda_available w = true /\ no_gpu args = false)) /\
  device_bindings evs = [dev] /\ dtype_settings evs = [float64] /\ seedings evs = [0%Z] /\
  take 3 evs = [EBindDevice dev; ESetDefaultDtype float64; EManualSeed 0] /\
  glob_device w' = Some dev /\ default_dtype w' = float64 /\
  Forall (event_on dev float64) evs /\
  ((main L args w).1 = inr tt ->
   length (integrations evs) = 3 + 3 * 8 /\ length (paths_built evs) = 2).
Proof.
  cbv zeta. fold (Expected.chosen_device w args).
  split.
  { unfold Expected.chosen_device.
    destruct (cuda_available w), (no_gpu args); cbn; split;
      first [ discriminate | intros [? ?]; discriminate | intros _; split; reflexivity
            | reflexivity ]. }
  split.
  { unfold Expected.chosen_device.
    destruct (cuda_available w), (no_gpu args); cbn; split;
      first [ discriminate | reflexivity | intros _ [? ?]; discriminate
            | intros H; exfalso; apply H; split; reflexivity ]. }
  destruct (fs_cases w) as [Hfs|[Hd Hf]].
  - rewrite (main_run w args Hfs). cbn [fst snd].
    split; [ unfold device_bindings; read_main; reflexivity | ].
    split; [ unfold dtype_settings; read_main; reflexivity | ].
    split; [ unfold seedings; read_main; reflexivity | ].
    split; [ rewrite main_trace; reflexivity | ].
    split; [ reflexivity | ]. split; [ reflexivity | ].
    split.
    { rewrite main_trace.
      apply Forall_app; split.
      { unfold Expected.startup_events. repeat (apply Forall_cons_2; [ exact I | ]).
        apply Forall_nil_2. }
      apply Forall_app; split.
      - apply (sample_events_on (Expected.startup_world L w args)).
      - apply (estimator_events_on
                 (Expected.sample_world L (Expected.startup_world L w args)
                    (Expected.chosen_device w args))). }
    intros _. split.
    + unfold integrations. read_main. reflexivity.
    + unfold paths_built. read_main. reflexivity.
  - destruct (main_blocked w args Hd Hf) as (r & rest & _ & Hrun).
    rewrite Hrun. cbn [fst snd]. rewrite main_blocked_trace.
    destruct r as [[[e h] m] a].
    do 4 (split; [ reflexivity | ]). split; [ reflexivity | ]. split; [ reflexivity | ].
    split; [ | intros [=] ].
    apply Forall_app; split.
    { unfold Expected.startup_events. repeat (apply Forall_cons_2; [ exact I | ]).
      apply Forall_nil_2. }
    apply Forall_app; split.
    + apply Forall_take. apply (sample_events_on (Expected.startup_world L w args)).
    + unfold Expected.sample_lines. cbn [map app].
      repeat (apply Forall_cons_2; [ exact I | ]). apply Forall_nil_2.
Qed.


(** C7: the strong-order estimator is deterministic given the seeded
    randomness.  Two runs of it, entered with the same device and default
    precision, the generator in the same state (the state a fixed seed gives)
    and the same source for the path's entropy (so the same path
    realization), compute the same MSEs from the same end values, in the
    same order, and hand the same arrays to the three lists: for each of the
    three methods the sequence of eight MSE values is the same in both
    runs, and so are, when both runs return normally, the regressions and
    the lines plotted.  Nothing else of the state the runs start from, the
    objects allocated before, the figures, the files, the trace, makes a
    difference. *)
Theorem estimator_mse_deterministic (w1 w2 : World) (dev : device) :
  glob_device w1 = Some dev -> glob_device w2 = Some dev ->
  default_dtype w1 = default_dtype w2 ->
  torch_rng w1 = torch_rng w2 -> entropy_src w1 = entropy_src w2 ->
  let evs1 := new_events w1 (inspect_strong_order L w1).2 in
  let evs2 := new_events w2 (inspect_strong_order L w2).2 in
  let sequence (k : nat) (evs : list Event) := omap (fun c => c.2 !! k) (conversions evs) in
  mse_calls evs1 = mse_calls evs2 /\
  length (mse_calls evs1) = 3 * 8 /\
  conversions evs1 = conversions evs2 /\
  Forall (fun c => c.2 = map tensor_to_numpy c.1) (conversions evs1) /\
  concat (map fst (conversions evs1)) = map snd (mse_calls evs1) /\
  (forall k, k < 3 -> sequence k evs1 = sequence k evs2 /\ length (sequence k evs1) = 8) /\
  ((inspect_strong_order L w1).1 = inr tt -> (inspect_strong_order L w2).1 = inr tt ->
   regressions evs1 = regressions evs2 /\
   plotted_lines evs1 = plotted_lines evs2 /\ length (plotted_lines evs1) = 3).
Proof.
  intros Hd1 Hd2 Hdt Hrng Hent. cbv zeta.
  destruct (estimator_mse_reads w1 dev Hd1) as [Hm1 Hc1].
  destruct (estimator_mse_reads w2 dev Hd2) as [Hm2 Hc2].
  destruct (estimator_data_eq w1 w2 dev 4096 10 Hdt Hrng Hent) as (Hts & Hy0 & Hpv & Hbm & _).
  assert (Hm : mse_calls (new_events w1 (inspect_strong_order L w1).2) =
               mse_calls (new_events w2 (inspect_strong_order L w2).2)).
  { rewrite Hm1, Hm2. unfold Expected.est_step_events. rewrite Hts, Hy0, Hpv, Hbm.
    apply flat_map_ext. intros dt. reflexivity. }
  assert (Hc : conversions (new_events w1 (inspect_strong_order L w1).2) =
               conversions (new_events w2 (inspect_strong_order L w2).2)).
  { rewrite Hc1, Hc2. unfold Expected.est_step_events. rewrite Hts, Hy0, Hpv, Hbm.
    apply flat_map_ext. intros dt. reflexivity. }
  split; [ exact Hm | ].
  split; [ rewrite Hm1; reflexivity | ].
  split; [ exact Hc | ].
  split.
  { rewrite Hc1. apply Forall_flat_map. intros dt.
    apply Forall_cons_2; [ reflexivity | apply Forall_nil_2 ]. }
  split.
  { rewrite Hc1, Hm1. unfold dts. cbn [seq map flat_map app concat fst snd]. reflexivity. }
  split.
  { intros k Hk. rewrite Hc. split; [ reflexivity | ].
    rewrite Hc2.
    destruct k as [|[|[|k]]]; [ reflexivity | reflexivity | reflexivity | lia ]. }
  intros Hok1 Hok2.
  destruct (inspect_strong_order_returns w1 Hok1) as (dev1 & Hdev1 & Hfs1).
  destruct (inspect_strong_order_returns w2 Hok2) as (dev2 & Hdev2 & Hfs2).
  rewrite (inspect_strong_order_run w1 dev Hd1 Hfs1),
    (inspect_strong_order_run w2 dev Hd2 Hfs2). cbn [snd].
  rewrite !estimator_trace.
  destruct (estimator_reads_eq w1 w2 dev Hdt Hrng Hent) as (_ & Hreg & Hplot & _).
  split; [ exact Hreg | ]. split; [ exact Hplot | ].
  rewrite plotted_estimator_events. reflexivity.
Qed.

(** * Further properties of the script *)

(** A procedure that returns normally leaves the settings of the process
    as it found them: the global [device], which was bound, the default
    dtype, the gradient mode (the [no_grad] block has put it back), the
    open figures.  It has bound no device, set no dtype and seeded no
    generator, so it has computed in whatever default precision was current
    at the call, not in float64 of its own accord. *)
Theorem procedures_keep_process_settings (w : World) :
  let kept (r : Res unit) :=
    r.1 = inr tt ->
    glob_device r.2 = glob_device w /\ default_dtype r.2 = default_dtype w /\
    grad_enabled r.2 = grad_enabled w /\ cuda_available r.2 = cuda_available w /\
    figs r.2 = figs w /\
    device_bindings (new_events w r.2) = [] /\ dtype_settings (new_events w r.2) = [] /\
    seedings (new_events w r.2) = [] /\
    exists dev, glob_device w = Some dev /\
                Forall (event_on dev (default_dtype w)) (new_events w r.2) in
  kept (inspect_sample L w) /\ kept (inspect_strong_order L w).
Proof.
  cbv zeta. split; intros Hok.
  - destruct (inspect_sample_returns w Hok) as (dev & Hdev & Hfs).
    rewrite (inspect_sample_run w dev Hdev Hfs). cbn [fst snd].
    split; [ reflexivity | ].
    do 4 (split; [ reflexivity | ]).
    split; [ unfold device_bindings; read_sample; reflexivity | ].
    split; [ unfold dtype_settings; read_sample; reflexivity | ].
    split; [ unfold seedings; read_sample; reflexivity | ].
    exists dev. split; [ exact Hdev | ].
    rewrite sample_trace. apply sample_events_on.
  - destruct (inspect_strong_order_returns w Hok) as (dev & Hdev & Hfs).
    rewrite (inspect_strong_order_run w dev Hdev Hfs). cbn [fst snd].
    split; [ reflexivity | ].
    do 4 (split; [ reflexivity | ]).
    split; [ unfold device_bindings; read_estimator; rewrite flat_map_nil; reflexivity | ].
    split; [ unfold dtype_settings; read_estimator; rewrite flat_map_nil; reflexivity | ].
    split; [ unfold seedings; read_estimator; rewrite flat_map_nil; reflexivity | ].
    exists dev. split; [ exact Hdev | ].
    rewrite estimator_trace. apply estimator_events_on.
Qed.

(** A whole run gives back the process as it found it, but for what it is
    for: the open figures and the gradient mode are as before; the heap has
    ten more objects (two parameters, two models and a path per procedure)
    and every object that was there is unchanged; no directory is removed;
    the trace is extended, never rewritten. *)
Theorem run_leaves_the_rest_alone (w : World) (args : Args) :
  Expected.fs_ready w ->
  let w' := (main L args w).2 in
  (main L args w).1 = inr tt /\
  figs w' = figs w /\ grad_enabled w' = grad_enabled w /\
  cuda_available w' = cuda_available w /\
  next_id w' = next_id w + 10 /\
  (forall r, r < next_id w -> heap w' !! r = heap w !! r) /\
  (forall r, next_id w <= r < next_id w + 10 -> is_Some (heap w' !! r)) /\
  dirs w ⊆ dirs w' /\
  trace w' = trace w ++ new_events w w'.
Proof.
  intros Hfs. cbv zeta. rewrite (main_run w args Hfs). cbn [fst snd].
  split; [ reflexivity | ]. do 3 (split; [ reflexivity | ]).
  split.
  { unfold Expected.main_world, Expected.estimator_world, Expected.sample_world,
      Expected.world_after, Expected.bm_ref, Expected.startup_world.
    cbn [next_id]. lia. }
  assert (Hn : next_id (Expected.sample_world L (Expected.startup_world L w args)
                          (Expected.chosen_device w args)) = next_id w + 5).
  { unfold Expected.sample_world, Expected.world_after, Expected.bm_ref,
      Expected.startup_world. cbn [next_id]. lia. }
  split.
  { intros r Hr.
    unfold Expected.main_world, Expected.estimator_world, Expected.world_after. cbn [heap].
    rewrite heap_after_old by lia.
    unfold Expected.sample_world, Expected.world_after. cbn [heap].
    rewrite heap_after_old by exact Hr. reflexivity. }
  split.
  { intros r Hr.
    unfold Expected.main_world, Expected.estimator_world, Expected.world_after. cbn [heap].
    destruct (decide (r < next_id w + 5)) as [Hlt|Hge].
    - rewrite heap_after_old by lia.
      unfold Expected.sample_world, Expected.world_after. cbn [heap].
      apply heap_after_new. cbn [next_id Expected.startup_world]. lia.
    - apply heap_after_new. lia. }
  split.
  { unfold Expected.main_world, Expected.estimator_world, Expected.world_after. cbn [dirs].
    etransitivity; [ | apply dirs_after_mono ].
    unfold Expected.sample_world, Expected.world_after. cbn [dirs].
    apply dirs_after_mono. }
  rewrite main_trace.
  unfold Expected.main_world, Expected.estimator_world.
  unfold Expected.world_after at 1. cbn [trace].
  unfold Expected.sample_world at 1. unfold Expected.world_after at 1. cbn [trace].
  unfold Expected.startup_world at 1. cbn [trace].
  rewrite <- !app_assoc. reflexivity.
Qed.

(** A run that returns normally has made the output directory if and only
    if it was missing, and then once (in the first procedure; the second
    found it); the directory exists afterwards.  A second run in the place
    the first left, if it returns normally too, makes no directory and
    leaves the directories as they were, saves under the same thirty-three
    names, and leaves exactly the files that were there after the first. *)
Theorem output_directory_made_once (w : World) (args args' : Args) :
  let w' := (main L args w).2 in
  let w'' := (main L args' w').2 in
  (main L args w).1 = inr tt -> (main L args' w').1 = inr tt ->
  directories_made (new_events w w') =
    (if bool_decide (Expected.img_dir ∈ dirs w) then [] else [Expected.img_dir]) /\
  Expected.img_dir ∈ dirs w' /\
  directories_made (new_events w' w'') = [] /\
  dirs w'' = dirs w' /\
  saved (new_events w' w'') = saved (new_events w w') /\
  (forall f, is_Some (files w'' !! f) <-> is_Some (files w' !! f)).
Proof.
  cbv zeta. intros Hok Hok'.
  pose proof (main_returns w args Hok) as Hfs.
  pose proof (main_returns _ args' Hok') as Hfs'. clear Hok Hok'. revert Hfs'.
  rewrite (main_run w args Hfs). cbn [fst snd]. intros Hfs'.
  pose proof (main_img_dir w args Hfs) as Hd.
  rewrite (main_run _ args' Hfs'). cbn [fst snd].
  split; [ apply main_directories_made; exact Hfs | ].
  split; [ exact Hd | ].
  split.
  { rewrite main_directories_made by exact Hfs'.
    rewrite bool_decide_eq_true_2 by exact Hd. reflexivity. }
  split.
  { unfold Expected.main_world at 1.
    unfold Expected.estimator_world, Expected.world_after. cbn [dirs].
    rewrite dirs_after_present.
    - unfold Expected.sample_world, Expected.world_after. cbn [dirs].
      apply dirs_after_present. exact Hd.
    - unfold Expected.sample_world, Expected.world_after. cbn [dirs].
      rewrite dirs_after_present; exact Hd. }
  split; [ rewrite !main_saved; reflexivity | ].
  intros f.
  destruct (decide (f ∈ map savefig_target
                          (map Expected.sample_file (seq 0 32) ++ [Expected.rate_file])))
    as [Hin|Hout].
  - assert (Hboth : forall v a, is_Some (files (Expected.main_world L v a) !! f)).
    { intros v a. rewrite map_app in Hin. apply elem_of_app in Hin as [Hin|Hin].
      - apply elem_of_map in Hin as (n & -> & Hin).
        apply elem_of_map in Hin as (i & -> & Hi). apply elem_of_seq in Hi.
        destruct (main_file_sample v a i) as (r & _ & Hr); [ lia | ].
        rewrite Hr. eexists. reflexivity.
      - apply list_elem_of_singleton in Hin as ->. rewrite main_file_rate.
        eexists. reflexivity. }
    split; intros _; apply Hboth.
  - rewrite (main_files_other _ args' f Hout). reflexivity.
Qed.

(** A run does not depend on what the process did before.  Two runs with
    the same arguments that both return normally, from any two states that
    agree on whether there is an accelerator and on the source the paths'
    entropy is drawn from, make the same MSE computations with the same
    results, the same regressions and the same plots, leave the same figure
    in each of the thirty-three files, and end with the same settings and
    random sources: the startup block sets the precision and reseeds torch's
    generator, so the generator state, dtype, objects, figures and other
    files there were before make no difference. *)
Theorem results_independent_of_prior_state (w1 w2 : World) (args : Args) :
  (main L args w1).1 = inr tt -> (main L args w2).1 = inr tt ->
  cuda_available w1 = cuda_available w2 -> entropy_src w1 = entropy_src w2 ->
  let w1' := (main L args w1).2 in
  let w2' := (main L args w2).2 in
  mse_calls (new_events w1 w1') = mse_calls (new_events w2 w2') /\
  regressions (new_events w1 w1') = regressions (new_events w2 w2') /\
  plotted_lines (new_events w1 w1') = plotted_lines (new_events w2 w2') /\
  (forall f,
     f ∈ map savefig_target (map Expected.sample_file (seq 0 32) ++ [Expected.rate_file]) ->
     files w1' !! f = files w2' !! f) /\
  glob_device w1' = glob_device w2' /\ default_dtype w1' = default_dtype w2' /\
  torch_rng w1' = torch_rng w2' /\ entropy_src w1' = entropy_src w2'.
Proof.
  intros Hok1 Hok2 Hca He.
  pose proof (main_returns w1 args Hok1) as Hfs1.
  pose proof (main_returns w2 args Hok2) as Hfs2. clear Hok1 Hok2.
  cbv zeta.
  rewrite (main_run w1 args Hfs1), (main_run w2 args Hfs2). cbn [fst snd].
  assert (Hdev : Expected.chosen_device w1 args = Expected.chosen_device w2 args).
  { unfold Expected.chosen_device. rewrite Hca. reflexivity. }
  set (W1 := Expected.startup_world L w1 args). set (W2 := Expected.startup_world L w2 args).
  set (dev := Expected.chosen_device w2 args).
  destruct (sample_data_eq W1 W2 dev eq_refl eq_refl He) as (Hts & Hrows & Hd' & Hr' & He').
  destruct (estimator_reads_eq (Expected.sample_world L W1 dev) (Expected.sample_world L W2 dev)
              dev Hd' Hr' He') as (Hmse & Hreg & Hplot & Hfig).
  destruct (estimator_data_eq (Expected.sample_world L W1 dev) (Expected.sample_world L W2 dev)
              dev 4096 10 Hd' Hr' He') as (_ & _ & _ & _ & Hrng & Hent).
  rewrite !main_trace, Hdev. fold W1 W2 dev.
  split.
  { unfold mse_calls. rewrite !omap_app, !omap_sample_events by reflexivity.
    f_equal. f_equal. exact Hmse. }
  split.
  { unfold regressions. rewrite !omap_app, !omap_sample_events by reflexivity.
    f_equal. f_equal. exact Hreg. }
  split.
  { unfold plotted_lines at 1 2. rewrite !omap_app.
    fold (plotted_lines (Expected.sample_events L W1 dev)).
    fold (plotted_lines (Expected.sample_events L W2 dev)).
    fold (plotted_lines (Expected.estimator_events L (Expected.sample_world L W1 dev) dev 4096 10)).
    fold (plotted_lines (Expected.estimator_events L (Expected.sample_world L W2 dev) dev 4096 10)).
    rewrite Hplot, !plotted_sample_events, Hts, Hrows. reflexivity. }
  split.
  { intros f Hf. unfold Expected.main_world. rewrite Hdev. fold W1 W2 dev.
    unfold Expected.estimator_world, Expected.world_after. cbn [files]. rewrite Hfig.
    destruct (decide (f = savefig_target Expected.rate_file)) as [->|Hne].
    - rewrite !lookup_insert_eq. reflexivity.
    - rewrite !lookup_insert_ne by congruence.
      unfold Expected.sample_world, Expected.world_after. cbn [files].
      rewrite Hts, Hrows. apply files_after_agree.
      rewrite sample_rows_indices.
      rewrite map_app in Hf. apply elem_of_app in Hf as [Hf|Hf]; [ exact Hf | ].
      apply list_elem_of_singleton in Hf. contradiction. }
  unfold Expected.main_world. rewrite Hdev. fold W1 W2 dev.
  split.
  { change (Some (Expected.chosen_device w1 args) = Some dev). rewrite Hdev. reflexivity. }
  split; [ reflexivity | ].
  split; [ exact Hrng | exact Hent ].
Qed.

(** In a run that returns normally the script never relies on a figure
    pyplot would open on its own, and never has two of its figures open:
    each of its thirty-three figures is opened, drawn on, saved once and
    closed before the next is opened, and none is open at the end. *)
Theorem figures_opened_saved_closed (w : World) (args : Args) :
  (main L args w).1 = inr tt ->
  let evs := new_events w (main L args w).2 in
  pyplot_protocol NoFigure evs = Some NoFigure /\
  length (saved evs) = 33.
Proof.
  intros Hok. pose proof (main_returns w args Hok) as Hfs. clear Hok.
  cbv zeta. rewrite (main_run w args Hfs). cbn [fst snd].
  split.
  - rewrite main_trace, pyplot_protocol_app.
    change (pyplot_protocol NoFigure (Expected.startup_events w args)) with (Some NoFigure).
    cbv beta iota. rewrite pyplot_protocol_app, pyplot_sample_events.
    apply pyplot_estimator_events.
  - rewrite main_saved. reflexivity.
Qed.

(** Every [plt.plot] of a run is handed abscissae and ordinates of the same
    length: in the 32 x 4 lines of the sample-path figures both are vectors
    of 100 entries, one per time point (the solutions, of shape
    (100, 32, 1), were squeezed and transposed for that); in the three lines
    of the rate plot both have 8 entries, one per step size. *)
Theorem plots_have_matching_axes (w : World) (args : Args) :
  Expected.fs_ready w ->
  let lines := plotted_lines (new_events w (main L args w).2) in
  (main L args w).1 = inr tt /\
  length lines = 32 * 4 + 3 /\
  Forall (fun ln => plot_shape (ln_x ln) = Some [100] /\ plot_shape (ln_y ln) = Some [100])
         (take (32 * 4) lines) /\
  Forall (fun ln => plot_shape (ln_x ln) = Some [8] /\ plot_shape (ln_y ln) = Some [8])
         (drop (32 * 4) lines).
Proof.
  intros Hfs. cbv zeta. rewrite (main_run w args Hfs). cbn [fst snd].
  split; [ reflexivity | ].
  set (W := Expected.startup_world L w args). set (dev := Expected.chosen_device w args).
  assert (Hl : plotted_lines (new_events w (Expected.main_world L w args)) =
               flat_map (fun x => Expected.sample_lines (Expected.ts_ L W dev) x.2)
                        (Expected.sample_rows L W dev) ++
               Expected.rate_lines L
                 (Expected.est_pv L (Expected.sample_world L W dev) dev 10)
                 (Expected.est_y0 (Expected.sample_world L W dev) dev 4096 10)
                 (Expected.est_ts (Expected.sample_world L W dev) dev) 2
                 (Expected.est_bm L (Expected.sample_world L W dev) dev 4096 10)).
  { rewrite main_trace. fold W dev. unfold plotted_lines at 1. rewrite !omap_app.
    fold (plotted_lines (Expected.sample_events L W dev)).
    fold (plotted_lines (Expected.estimator_events L (Expected.sample_world L W dev) dev 4096 10)).
    rewrite plotted_sample_events, plotted_estimator_events. reflexivity. }
  rewrite Hl.
  assert (Hn : length (flat_map (fun x => Expected.sample_lines (Expected.ts_ L W dev) x.2)
                                (Expected.sample_rows L W dev)) = 32 * 4).
  { rewrite sample_lines_length, sample_rows_length. reflexivity. }
  split; [ rewrite length_app, Hn; reflexivity | ].
  rewrite take_app_length', drop_app_length' by exact Hn.
  split.
  - apply Forall_flat_map_in. intros [i [[[e h] m] a]] Hin.
    apply sample_rows_shape in Hin as (He & Hh & Hm & Ha).
    unfold Expected.sample_lines. cbn [snd].
    repeat (apply Forall_cons_2;
            [ unfold plot_shape; cbn [ln_x ln_y np_array];
              rewrite ?He, ?Hh, ?Hm, ?Ha; split; reflexivity | ]).
    apply Forall_nil_2.
  - unfold Expected.rate_lines.
    repeat (apply Forall_cons_2; [ apply rate_line_shape; intros dt; reflexivity | ]).
    apply Forall_nil_2.
Qed.

(** In both procedures every solver is run on the model of its own
    calculus: euler on the model built with the default (Ito) type, with no
    renaming; heun and midpoint on the model built as Stratonovich, with the
    drift taken from [f_corr]; and the closed form is asked of the Ito
    model. *)
Theorem methods_run_on_their_model (w : World) (dev : device) :
  glob_device w = Some dev -> Expected.fs_ready w ->
  let is_model (w' : World) (kind : sde_type) (m : nat) :=
    exists d p, heap w' !! m = Some (OEx2 kind d p) in
  let fits (w' : World) :=
    Forall (fun c : string * nat * gmap string string =>
              (c.1.1 = "euler" /\ c.2 = ∅ /\ is_model w' ito c.1.2) \/
              ((c.1.1 = "heun" \/ c.1.1 = "midpoint") /\ c.2 = {["drift" := "f_corr"]} /\
               is_model w' stratonovich c.1.2))
           (method_calls (new_events w w')) /\
    Forall (is_model w' ito) (analytical_calls (new_events w w')) in
  ((inspect_sample L w).1 = inr tt /\ fits (inspect_sample L w).2 /\
   map (fun c => c.1.1) (method_calls (new_events w (inspect_sample L w).2)) =
     ["euler"; "heun"; "midpoint"]) /\
  ((inspect_strong_order L w).1 = inr tt /\ fits (inspect_strong_order L w).2 /\
   length (method_calls (new_events w (inspect_strong_order L w).2)) = 3 * 8).
Proof.
  intros Hdev Hfs. cbv zeta.
  assert (Hi : forall w', heap w' !! Expected.sde_ref w = Some (OEx2 ito 1 (Expected.p_ref w)) \/
                          heap w' !! Expected.sde_ref w = Some (OEx2 ito 10 (Expected.p_ref w)) ->
                          exists d p, heap w' !! Expected.sde_ref w = Some (OEx2 ito d p)).
  { intros w' [H|H]; eexists; eexists; exact H. }
  assert (Hs : forall w', heap w' !! Expected.strat_ref w =
                            Some (OEx2 stratonovich 1 (Expected.p_ref w)) \/
                          heap w' !! Expected.strat_ref w =
                            Some (OEx2 stratonovich 10 (Expected.p_ref w)) ->
                          exists d p, heap w' !! Expected.strat_ref w = Some (OEx2 stratonovich d p)).
  { intros w' [H|H]; eexists; eexists; exact H. }
  split.
  - rewrite (inspect_sample_run w dev Hdev Hfs). cbn [fst snd].
    assert (H1 : heap (Expected.sample_world L w dev) !! Expected.sde_ref w =
                 Some (OEx2 ito 1 (Expected.p_ref w))) by heap_lookup.
    assert (H2 : heap (Expected.sample_world L w dev) !! Expected.strat_ref w =
                 Some (OEx2 stratonovich 1 (Expected.p_ref w))) by heap_lookup.
    split; [ reflexivity | ]. split; [ split | ].
    + unfold method_calls. read_sample.
      apply Forall_cons_2; [ left; cbn [fst snd]; auto | ].
      apply Forall_cons_2; [ right; cbn [fst snd]; auto | ].
      apply Forall_cons_2; [ right; cbn [fst snd]; auto | ].
      apply Forall_nil_2.
    + unfold analytical_calls. read_sample.
      apply Forall_cons_2; [ auto | apply Forall_nil_2 ].
    + unfold method_calls. read_sample. reflexivity.
  - rewrite (inspect_strong_order_run w dev Hdev Hfs). cbn [fst snd].
    assert (H1 : heap (Expected.estimator_world L w dev 4096 10) !! Expected.sde_ref w =
                 Some (OEx2 ito 10 (Expected.p_ref w))) by heap_lookup.
    assert (H2 : heap (Expected.estimator_world L w dev 4096 10) !! Expected.strat_ref w =
                 Some (OEx2 stratonovich 10 (Expected.p_ref w))) by heap_lookup.
    split; [ reflexivity | ]. split; [ split | ].
    + unfold method_calls. read_estimator. rewrite !app_nil_r.
      apply Forall_flat_map. intros dt.
      apply Forall_cons_2; [ left; cbn [fst snd]; auto | ].
      apply Forall_cons_2; [ right; cbn [fst snd]; auto | ].
      apply Forall_cons_2; [ right; cbn [fst snd]; auto | ].
      apply Forall_nil_2.
    + unfold analytical_calls. read_estimator. rewrite !app_nil_r.
      apply Forall_flat_map. intros dt.
      apply Forall_cons_2; [ auto | apply Forall_nil_2 ].
    + unfold method_calls. read_estimator. rewrite !app_nil_r. reflexivity.
Qed.

(** In each procedure every solver call, numerical or analytical, is given
    the same initial state, the same time grid and the same path object, and
    the path was built for exactly that problem: it runs from the first
    point of the grid to the last, and has the shape, precision and device
    of the initial state, which is all ones, one row per batch element. *)
Theorem path_spans_the_time_grid (w : World) (dev : device) :
  glob_device w = Some dev -> Expected.fs_ready w ->
  let spans (w' : World) (n : nat) (shape : list nat) :=
    exists y0 ts b t0 t1 entropy,
      solver_inputs (new_events w w') <> [] /\
      Forall (eq (y0, ts, b)) (solver_inputs (new_events w w')) /\
      t_shape ts = [n] /\ t_shape y0 = shape /\
      t_data y0 = replicate (product shape) 1%float /\
      heap w' !! b =
        Some (OBrownian t0 t1 (t_shape y0) (t_dtype y0) (t_device y0) space_time entropy) /\
      tensor_index ts 0 = inr t0 /\ tensor_index ts (-1) = inr t1 in
  spans (inspect_sample L w).2 100 [32; 1] /\
  spans (inspect_strong_order L w).2 2 [4096; 10].
Proof.
  intros Hdev Hfs. cbv zeta. split.
  - rewrite (inspect_sample_run w dev Hdev Hfs). cbn [snd].
    exists (Expected.smp_y0 w dev), (Expected.smp_ts L w dev), (Expected.bm_ref w).
    do 3 eexists.
    split; [ unfold solver_inputs; read_sample; discriminate | ].
    split.
    { unfold solver_inputs. read_sample.
      repeat (apply Forall_cons_2; [ reflexivity | ]). apply Forall_nil_2. }
    split; [ reflexivity | ]. split; [ reflexivity | ]. split; [ reflexivity | ].
    split; [ heap_lookup | ].
    split; reflexivity.
  - rewrite (inspect_strong_order_run w dev Hdev Hfs). cbn [snd].
    exists (Expected.est_y0 w dev 4096 10), (Expected.est_ts w dev), (Expected.bm_ref w).
    do 3 eexists.
    split.
    { unfold solver_inputs. read_estimator. rewrite !app_nil_r.
      unfold dts. cbn [seq map flat_map app]. discriminate. }
    split.
    { unfold solver_inputs. read_estimator. rewrite !app_nil_r.
      apply Forall_flat_map. intros dt.
      repeat (apply Forall_cons_2; [ reflexivity | ]). apply Forall_nil_2. }
    split; [ reflexivity | ]. split; [ reflexivity | ]. split; [ reflexivity | ].
    split; [ heap_lookup | ].
    split; reflexivity.
Qed.
End Run.

(** * The theorems at a concrete library and world *)

Lemma ready_world_fs : Expected.fs_ready ready_world.
Proof. right. cbn [files ready_world set_device fresh_world]. rewrite dom_empty_L. apply not_elem_of_empty. Defined.

(** C1 on the concrete library, in a world where [device] is bound. *)
Lemma strong_order_estimator_witness :
  glob_device ready_world = Some cuda /\ Expected.fs_ready ready_world /\
  Script.inspect_strong_order demo_lib ready_world =
    (inr tt, Expected.estimator_world demo_lib ready_world cuda 4096 10).
Proof.
  split; [ reflexivity | ]. split; [ exact ready_world_fs | ].
  exact (proj1 (strong_order_estimator demo_lib ready_world cuda eq_refl ready_world_fs)).
Defined.

(** C3 on the concrete library: the estimator passes one path object. *)
Lemma one_path_per_procedure_witness :
  glob_device ready_world = Some cuda /\ Expected.fs_ready ready_world /\
  paths_built (new_events ready_world (Expected.sample_world demo_lib ready_world cuda)) =
    [Expected.bm_ref ready_world].
Proof.
  split; [ reflexivity | ]. split; [ exact ready_world_fs | ].
  exact (proj1 (proj2 (proj1
    (one_path_per_procedure demo_lib ready_world cuda eq_refl ready_world_fs)))).
Defined.

(** C4 on the concrete library: the sample-path comparison succeeds. *)
Lemma models_share_parameter_witness :
  glob_device ready_world = Some cuda /\ Expected.fs_ready ready_world /\
  Script.inspect_sample demo_lib ready_world =
    (inr tt, Expected.sample_world demo_lib ready_world cuda).
Proof.
  split; [ reflexivity | ]. split; [ exact ready_world_fs | ].
  exact (proj1 (proj1
    (models_share_parameter demo_lib ready_world cuda eq_refl ready_world_fs))).
Defined.

(** C9 on the concrete library. *)
Lemma mses_converted_before_regression_witness :
  glob_device ready_world = Some cuda /\ Expected.fs_ready ready_world /\
  Script.inspect_strong_order demo_lib ready_world =
    (inr tt, Expected.estimator_world demo_lib ready_world cuda 4096 10).
Proof.
  split; [ reflexivity | ]. split; [ exact ready_world_fs | ].
  exact (proj1
    (mses_converted_before_regression demo_lib ready_world cuda eq_refl ready_world_fs)).
Defined.

(** C10 in a fresh process, where [device] is unbound: [inspect_sample]
    raises NameError. *)
Lemma procedures_need_startup_witness :
  glob_device fresh_world = None /\
  Script.inspect_sample demo_lib fresh_world = (inl (NameError "device"), fresh_world).
Proof.
  split; [ reflexivity | ].
  exact (proj1 (procedures_need_startup demo_lib fresh_world (mkArgs false) eq_refl)).
Defined.

(** * The further theorems at a concrete library and world *)

Lemma fresh_world_fs : Expected.fs_ready fresh_world.
Proof. right. cbn [files fresh_world]. rewrite dom_empty_L. apply not_elem_of_empty. Defined.

Lemma used_world_fs : Expected.fs_ready used_world.
Proof. left. cbn [dirs used_world]. apply elem_of_singleton. reflexivity. Defined.

Lemma fresh_main_returns args : (Script.main demo_lib args fresh_world).1 = inr tt.
Proof. exact (f_equal fst (main_run demo_lib fresh_world args fresh_world_fs)). Defined.

Lemma used_main_returns args : (Script.main demo_lib args used_world).1 = inr tt.
Proof. exact (f_equal fst (main_run demo_lib used_world args used_world_fs)). Defined.

Lemma ready_sample_returns : (Script.inspect_sample demo_lib ready_world).1 = inr tt.
Proof.
  exact (f_equal fst (inspect_sample_run demo_lib ready_world cuda eq_refl ready_world_fs)).
Defined.

Lemma fresh_main_twice_returns :
  (Script.main demo_lib (mkArgs true)
     (Script.main demo_lib (mkArgs false) fresh_world).2).1 = inr tt.
Proof.
  rewrite (main_run demo_lib fresh_world (mkArgs false) fresh_world_fs). cbn [snd].
  rewrite main_run; [ reflexivity | ].
  left. apply main_img_dir. exact fresh_world_fs.
Defined.


(** C7 for a fresh process and one that has been in use, both with the
    device bound and the random sources in the same state. *)
Lemma estimator_mse_deterministic_witness :
  glob_device ready_world = Some cuda /\ glob_device busy_world = Some cuda /\
  default_dtype ready_world = default_dtype busy_world /\
  torch_rng ready_world = torch_rng busy_world /\
  entropy_src ready_world = entropy_src busy_world /\
  mse_calls (new_events ready_world (Script.inspect_strong_order demo_lib ready_world).2) =
  mse_calls (new_events busy_world (Script.inspect_strong_order demo_lib busy_world).2).
Proof.
  do 5 (split; [ reflexivity | ]).
  exact (proj1 (estimator_mse_deterministic demo_lib ready_world busy_world cuda
                  eq_refl eq_refl eq_refl eq_refl eq_refl)).
Defined.

(** A procedure called directly, the device bound. *)
Lemma procedures_keep_process_settings_witness :
  (Script.inspect_sample demo_lib ready_world).1 = inr tt /\
  glob_device (Script.inspect_sample demo_lib ready_world).2 = glob_device ready_world.
Proof.
  split; [ exact ready_sample_returns | ].
  exact (proj1 (proj1 (procedures_keep_process_settings demo_lib ready_world)
                  ready_sample_returns)).
Defined.

Lemma run_leaves_the_rest_alone_witness :
  Expected.fs_ready used_world /\
  (Script.main demo_lib (mkArgs false) used_world).1 = inr tt.
Proof.
  split; [ exact used_world_fs | ].
  exact (proj1 (run_leaves_the_rest_alone demo_lib used_world (mkArgs false) used_world_fs)).
Defined.

(** Two runs one after the other, starting without the directory. *)
Lemma output_directory_made_once_witness :
  (Script.main demo_lib (mkArgs false) fresh_world).1 = inr tt /\
  (Script.main demo_lib (mkArgs true)
     (Script.main demo_lib (mkArgs false) fresh_world).2).1 = inr tt /\
  Expected.img_dir ∈ dirs (Script.main demo_lib (mkArgs false) fresh_world).2.
Proof.
  split; [ exact (fresh_main_returns (mkArgs false)) | ].
  split; [ exact fresh_main_twice_returns | ].
  exact (proj1 (proj2 (output_directory_made_once demo_lib fresh_world (mkArgs false)
                         (mkArgs true) (fresh_main_returns (mkArgs false))
                         fresh_main_twice_returns))).
Defined.

(** A fresh process and one that has been in use. *)
Lemma results_independent_of_prior_state_witness :
  (Script.main demo_lib (mkArgs false) fresh_world).1 = inr tt /\
  (Script.main demo_lib (mkArgs false) used_world).1 = inr tt /\
  cuda_available fresh_world = cuda_available used_world /\
  entropy_src fresh_world = entropy_src used_world /\
  mse_calls (new_events fresh_world (Script.main demo_lib (mkArgs false) fresh_world).2) =
  mse_calls (new_events used_world (Script.main demo_lib (mkArgs false) used_world).2).
Proof.
  split; [ exact (fresh_main_returns (mkArgs false)) | ].
  split; [ exact (used_main_returns (mkArgs false)) | ].
  split; [ reflexivity | ]. split; [ reflexivity | ].
  exact (proj1 (results_independent_of_prior_state demo_lib fresh_world used_world
                  (mkArgs false) (fresh_main_returns (mkArgs false))
                  (used_main_returns (mkArgs false)) eq_refl eq_refl)).
Defined.

Lemma figures_opened_saved_closed_witness :
  (Script.main demo_lib (mkArgs true) fresh_world).1 = inr tt /\
  pyplot_protocol NoFigure
    (new_events fresh_world (Script.main demo_lib (mkArgs true) fresh_world).2) = Some NoFigure.
Proof.
  split; [ exact (fresh_main_returns (mkArgs true)) | ].
  exact (proj1 (figures_opened_saved_closed demo_lib fresh_world (mkArgs true)
                  (fresh_main_returns (mkArgs true)))).
Defined.

Lemma plots_have_matching_axes_witness :
  Expected.fs_ready fresh_world /\
  (Script.main demo_lib (mkArgs false) fresh_world).1 = inr tt.
Proof.
  split; [ exact fresh_world_fs | ].
  exact (proj1 (plots_have_matching_axes demo_lib fresh_world (mkArgs false) fresh_world_fs)).
Defined.

Lemma methods_run_on_their_model_witness :
  glob_device ready_world = Some cuda /\ Expected.fs_ready ready_world /\
  (Script.inspect_sample demo_lib ready_world).1 = inr tt.
Proof.
  split; [ reflexivity | ]. split; [ exact ready_world_fs | ].
  exact (proj1 (proj1
    (methods_run_on_their_model demo_lib ready_world cuda eq_refl ready_world_fs))).
Defined.

Lemma path_spans_the_time_grid_witness :
  glob_device ready_world = Some cuda /\ Expected.fs_ready ready_world /\
  exists y0 ts b t0 t1 entropy,
    solver_inputs (new_events ready_world (Script.inspect_sample demo_lib ready_world).2) <> [] /\
    Forall (eq (y0, ts, b))
      (solver_inputs (new_events ready_world (Script.inspect_sample demo_lib ready_world).2)) /\
    t_shape ts = [100] /\ t_shape y0 = [32; 1] /\
    t_data y0 = replicate (product [32; 1]) 1%float /\
    heap (Script.inspect_sample demo_lib ready_world).2 !! b =
      Some (OBrownian t0 t1 (t_shape y0) (t_dtype y0) (t_device y0) space_time entropy) /\
    tensor_index ts 0 = inr t0 /\ tensor_index ts (-1) = inr t1.
Proof.
  split; [ reflexivity | ]. split; [ exact ready_world_fs | ].
  exact (proj1 (path_spans_the_time_grid demo_lib ready_world cuda eq_refl ready_world_fs)).
Defined.
